(** * Flux2: a shallow embedding of [flux2.py]

    The development follows the layout of the script: the colour namer and
    the prompt compiler (section PROMPT BUILDER of the script), the
    dimension validator (HELPER FUNCTIONS) and the two functions of the API
    client whose behaviour does not depend on the network library: the MIME
    selection of [encode_image_to_base64] and the polling loop
    [poll_for_result].

    Conventions.
    - A Python [int] is a [Z]; [%] with a positive divisor is [Z.modulo].
    - A Python [str] is a [string]; its characters are the code points
      below 256.
    - A [dict] with string keys and string values is a [gmap string string];
      [k in d] is [is_Some (d !! k)] and [d] is true when its size is not 0.
    - A function that can raise returns a [result]; [sys.exit(n)] is the
      exception [SystemExit n]. A conversion whose only failure is caught
      on the spot returns an [option]. *)

From Stdlib Require Import ZArith Lia Ascii String.
From stdpp Require Import base option list strings gmap pretty.

Local Open Scope string_scope.
Local Open Scope list_scope.
Local Open Scope Z_scope.

(** ** Exceptions and results *)

Inductive exn : Type :=
| OverflowError
| FileNotFoundError
| SystemExit (code : Z).

Inductive result (A : Type) : Type :=
| Ok (a : A)
| Raise (e : exn).

Arguments Ok {A} a.
Arguments Raise {A} e.

#[global] Instance result_ret : MRet result := λ A a, Ok a.
#[global] Instance result_bind : MBind result := λ A B f r,
  match r with
  | Ok a => f a
  | Raise e => Raise e
  end.

(** ** Colour namer *)

(** *** String primitives *)

(** [ord(c)] *)
Definition ord (c : ascii) : Z := Z.of_N (N_of_ascii c).

(** [s.lstrip(chars)]: drop the leading characters that occur in [chars]. *)
Fixpoint occurs (c : ascii) (chars : string) : bool :=
  match chars with
  | "" => false
  | String c' chars' => Ascii.eqb c c' || occurs c chars'
  end.

Fixpoint lstrip (chars s : string) : string :=
  match s with
  | "" => ""
  | String c s' => if occurs c chars then lstrip chars s' else s
  end.

Fixpoint str_drop (n : nat) (s : string) : string :=
  match n, s with
  | O, _ => s
  | S n', "" => ""
  | S n', String _ s' => str_drop n' s'
  end.

Fixpoint str_take (n : nat) (s : string) : string :=
  match n, s with
  | O, _ => ""
  | S n', "" => ""
  | S n', String c s' => String c (str_take n' s')
  end.

(** [s[i:j]] for [0 ≤ i ≤ j]; a slice past the end is cut short, it never
    raises. *)
Definition slice (i j : nat) (s : string) : string :=
  str_take (j - i) (str_drop i s).

(** *** [int(x, 16)]

    The conversion skips white space on both sides, takes one optional
    sign and one optional [0x] prefix, then hexadecimal digits, where a
    single underscore may separate two digits. [None] stands for
    [ValueError]. The strings of the model hold code points below 256;
    beyond them [int] also takes the decimal digits and the white space
    of other scripts. *)

(** White space for [int]: tab to carriage return, the space, and the two
    white-space code points of the Latin-1 range, NEL and NBSP. *)
Definition is_space (c : ascii) : bool :=
  let n := ord c in
  ((9 <=? n) && (n <=? 13)) || (n =? 32) || (n =? 133) || (n =? 160).

Definition is_sign (c : ascii) : bool :=
  Ascii.eqb c "+" || Ascii.eqb c "-".

Definition digit_value (c : ascii) : option Z :=
  let n := ord c in
  if (48 <=? n) && (n <=? 57) then Some (n - 48)
  else if (97 <=? n) && (n <=? 102) then Some (n - 87)
  else if (65 <=? n) && (n <=? 70) then Some (n - 55)
  else None.

Definition is_hex_digit (c : ascii) : bool := bool_decide (is_Some (digit_value c)).

Fixpoint lstrip_space (s : string) : string :=
  match s with
  | "" => ""
  | String c s' => if is_space c then lstrip_space s' else s
  end.

(** The digit loop: the value read so far, whether a digit was seen, whether
    the previous character was an underscore; returns the value and the
    unread rest. *)
Fixpoint scan_digits (s : string) (acc : Z) (seen prev_underscore : bool)
  : option (Z * string) :=
  match s with
  | "" => if prev_underscore || negb seen then None else Some (acc, s)
  | String c s' =>
      if Ascii.eqb c "_" then
        if prev_underscore then None else scan_digits s' acc seen true
      else
        match digit_value c with
        | Some d => scan_digits s' (16 * acc + d) true false
        | None => if prev_underscore || negb seen then None else Some (acc, s)
        end
  end.

Definition skip_sign (s : string) : Z * string :=
  match s with
  | String c s' =>
      if Ascii.eqb c "+" then (1, s')
      else if Ascii.eqb c "-" then (-1, s')
      else (1, s)
  | "" => (1, s)
  end.

Definition skip_prefix (s : string) : string :=
  match s with
  | String c0 (String c1 s') =>
      if Ascii.eqb c0 "0" && (Ascii.eqb c1 "x" || Ascii.eqb c1 "X") then
        match s' with
        | String u s'' => if Ascii.eqb u "_" then s'' else s'
        | "" => s'
        end
      else s
  | _ => s
  end.

Definition int_16 (x : string) : option Z :=
  let s := lstrip_space x in
  let '(sign, s) := skip_sign s in
  let s := skip_prefix s in
  match s with
  | "" => None
  | String c _ =>
      if Ascii.eqb c "_" then None
      else
        '(v, rest) ← scan_digits s 0 false false;
        match lstrip_space rest with
        | "" => Some (sign * v)
        | String _ _ => None
        end
  end.

(** *** [hex_to_color_name] *)

(** The body of the [try]: the three channels, or [None] when one of the
    conversions raises. *)
Definition parse_channels (hex_color : string) : option (Z * Z * Z) :=
  r ← int_16 (slice 0 2 hex_color);
  g ← int_16 (slice 2 4 hex_color);
  b ← int_16 (slice 4 6 hex_color);
  Some (r, g, b).

Definition hex_to_color_name (hex_color : string) : string :=
  let hex_color := lstrip "#" hex_color in
  match parse_channels hex_color with
  | None => hex_color
  | Some (r, g, b) =>
      if (r >? 200) && (g >? 200) && (b >? 200) then "white/cream"
      else if (r <? 50) && (g <? 50) && (b <? 50) then "black/dark"
      else if (r >? g) && (r >? b) then
        if r >? 200 then "bright red/coral" else "red/burgundy"
      else if (g >? r) && (g >? b) then
        if g >? 200 then "bright green/lime" else "green/forest"
      else if (b >? r) && (b >? g) then
        if b >? 200 then "bright blue/sky" else "blue/navy"
      else if (r >? 180) && (g >? 150) && (b <? 100) then "golden/amber"
      else if (r >? 150) && (g >? 100) && (b <? 80) then "brown/tan"
      else if (r >? 200) && (g >? 150) && (b >? 150) then "pink/rose"
      else if (r >? 100) && (g >? 100) && (b >? 100) then "gray"
      else "(" +:+ hex_color +:+ ")"
  end.

(** ** Prompt compiler *)

(** *** The structured prompt

    The prompt is a dictionary with ten known keys; a field is [None] when
    its key is missing. Subjects, the camera and text elements are
    dictionaries from strings to strings. *)

Record StructuredPrompt : Type := {
  scene : option string;
  subjects : option (list (gmap string string));
  style : option string;
  color_palette : option (list string);
  lighting : option string;
  mood : option string;
  background : option string;
  composition : option string;
  camera : option (gmap string string);
  text_elements : option (list (gmap string string));
}.

(** Truth values: the empty string, the empty list and the empty
    dictionary are false. *)
Definition truthy_str (s : string) : bool :=
  match s with "" => false | String _ _ => true end.

Definition truthy_list {A} (l : list A) : bool :=
  match l with [] => false | _ :: _ => true end.

Definition truthy_dict (d : gmap string string) : bool :=
  negb (Nat.eqb (size d) 0).

(** [sep.join(l)] *)
Definition join (sep : string) (l : list string) : string :=
  String.concat sep l.

(** The line feed and the double quote. *)
Definition LF : string := String (ascii_of_nat 10) "".
Definition DQUOTE : string := String (ascii_of_nat 34) "".

(** [str(i)] for an index of [enumerate] *)
Definition str_of_index (i : nat) : string := pretty i.

(** *** [build_prompt_from_structure] *)

(** [if key in structured and structured[key]: sections.append(label +
    structured[key])], the block of each of the six plain fields. *)
Definition append_labelled (label : string) (field : option string)
    (sections : list string) : list string :=
  match field with
  | Some value =>
      if truthy_str value then sections ++ [label +:+ value] else sections
  | None => sections
  end.

(** [if key in d: parts.append(f(d[key]))] *)
Definition append_key (d : gmap string string) (key : string)
    (f : string → string) (parts : list string) : list string :=
  match d !! key with
  | Some value => parts ++ [f value]
  | None => parts
  end.

(** The body of the loop over the subjects. *)
Definition subject_parts (subject : gmap string string) : list string :=
  let parts := [] in
  let parts := append_key subject "description" (λ v, v) parts in
  let parts := append_key subject "position" (λ v, "positioned " +:+ v) parts in
  let parts := append_key subject "action" (λ v, v) parts in
  parts.

(** [for i, subject in enumerate(..., i)], threading
    [subject_descriptions]. *)
Fixpoint subjects_loop (i : nat) (subjects : list (gmap string string))
    (subject_descriptions : list string) : list string :=
  match subjects with
  | [] => subject_descriptions
  | subject :: subjects' =>
      let parts := subject_parts subject in
      let subject_descriptions :=
        if truthy_list parts
        then subject_descriptions
               ++ ["Subject " +:+ str_of_index i +:+ ": " +:+ join ", " parts]
        else subject_descriptions in
      subjects_loop (S i) subjects' subject_descriptions
  end.

Definition camera_parts (cam : gmap string string) : list string :=
  let cam_parts := [] in
  let cam_parts :=
    append_key cam "angle" (λ v, "Camera angle: " +:+ v) cam_parts in
  let cam_parts := append_key cam "lens" (λ v, "Lens: " +:+ v) cam_parts in
  let cam_parts :=
    append_key cam "depth_of_field" (λ v, "Depth of field: " +:+ v)
      cam_parts in
  cam_parts.

(** The body of the loop over the text elements. *)
Definition text_desc (text : gmap string string) : list string :=
  let text_desc := [] in
  let text_desc :=
    append_key text "content"
      (λ v, "Text reading " +:+ DQUOTE +:+ v +:+ DQUOTE) text_desc in
  let text_desc := append_key text "style" (λ v, "in " +:+ v) text_desc in
  let text_desc :=
    append_key text "position" (λ v, "located " +:+ v) text_desc in
  let text_desc :=
    append_key text "color"
      (λ v, "in " +:+ hex_to_color_name v +:+ " color") text_desc in
  text_desc.

Fixpoint text_loop (texts : list (gmap string string))
    (text_parts : list string) : list string :=
  match texts with
  | [] => text_parts
  | text :: texts' =>
      let text_desc := text_desc text in
      let text_parts :=
        if truthy_list text_desc
        then text_parts ++ [join " " text_desc]
        else text_parts in
      text_loop texts' text_parts
  end.

(** The block of the subjects. *)
Definition append_subjects (field : option (list (gmap string string)))
    (sections : list string) : list string :=
  match field with
  | Some subjects =>
      if truthy_list subjects then
        let subject_descriptions := subjects_loop 1 subjects [] in
        if truthy_list subject_descriptions
        then sections ++ [join LF subject_descriptions]
        else sections
      else sections
  | None => sections
  end.

(** The block of the colour palette. *)
Definition append_color_palette (field : option (list string))
    (sections : list string) : list string :=
  match field with
  | Some colors =>
      if truthy_list colors then
        let color_descriptions :=
          map (λ c, c +:+ " (" +:+ hex_to_color_name c +:+ ")") colors in
        sections ++ ["Color palette: " +:+ join ", " color_descriptions]
      else sections
  | None => sections
  end.

(** The block of the camera settings. *)
Definition append_camera (field : option (gmap string string))
    (sections : list string) : list string :=
  match field with
  | Some cam =>
      if truthy_dict cam then
        let cam_parts := camera_parts cam in
        if truthy_list cam_parts
        then sections ++ [join " | " cam_parts]
        else sections
      else sections
  | None => sections
  end.

(** The block of the text elements. *)
Definition append_text_elements (field : option (list (gmap string string)))
    (sections : list string) : list string :=
  match field with
  | Some texts =>
      if truthy_list texts then
        let text_parts := text_loop texts [] in
        if truthy_list text_parts
        then sections ++ ["Text elements: " +:+ join "; " text_parts]
        else sections
      else sections
  | None => sections
  end.

(** The function appends to [sections] block after block and joins the
    result with blank lines. *)
Definition build_prompt_from_structure (structured : StructuredPrompt)
  : string :=
  let sections := [] in
  let sections := append_labelled "Scene: " (scene structured) sections in
  let sections := append_subjects (subjects structured) sections in
  let sections := append_labelled "Style: " (style structured) sections in
  let sections :=
    append_color_palette (color_palette structured) sections in
  let sections :=
    append_labelled "Lighting: " (lighting structured) sections in
  let sections :=
    append_labelled "Mood and atmosphere: " (mood structured) sections in
  let sections :=
    append_labelled "Background: " (background structured) sections in
  let sections :=
    append_labelled "Composition: " (composition structured) sections in
  let sections := append_camera (camera structured) sections in
  let sections :=
    append_text_elements (text_elements structured) sections in
  let main_prompt := join (LF +:+ LF) sections in
  main_prompt.

(** ** Dimension validator *)

Definition MIN_DIMENSION : Z := 64.
Definition MAX_MEGAPIXELS : Z := 4000000.

(** [n / d] rounded to the nearest integer, ties to the even one ([0 < d]).
    This is the rounding of both the int-to-float conversion and of the
    built-in [round]. *)
Definition round_half_even (n d : Z) : Z :=
  let q := n / d in
  let r := n mod d in
  if 2 * r <? d then q
  else if d <? 2 * r then q + 1
  else if Z.even q then q else q + 1.

(** A finite binary64 value, [mant * 2 ^ expo]. *)
Record float : Type := Float { mant : Z; expo : Z }.

(** A natural number rounded to 53 significant bits, as binary64 does. *)
Definition round_53 (a : Z) : Z :=
  if a <? 2 ^ 53 then a
  else
    let s := Z.log2 a - 52 in
    round_half_even a (2 ^ s) * 2 ^ s.

(** [value / 16] on an [int]: the correctly rounded binary64 quotient.
    Division by 16 only moves the exponent, so the quotient is [value]
    rounded to 53 bits, over 16; a quotient of [2 ^ 1024] or more raises
    [OverflowError]. *)
Definition truediv_16 (value : Z) : result float :=
  let m := Z.sgn value * round_53 (Z.abs value) in
  if 2 ^ 1028 <=? Z.abs m then Raise OverflowError
  else Ok (Float m (-4)).

(** [round(x)] on a float: the nearest [int], ties to even. *)
Definition py_round (x : float) : Z :=
  if 0 <=? expo x then mant x * 2 ^ expo x
  else round_half_even (mant x) (2 ^ (- expo x)).

(** [round(value / 16) * 16] *)
Definition round_to_multiple_of_16 (value : Z) : result Z :=
  x ← truediv_16 value;
  mret (py_round x * 16).

(** The messages appended to [errors] and [warnings], one constructor per
    f-string of the source, carrying the values it interpolates. *)
Inductive message : Type :=
| WidthBelowMinimum (width : Z)
| HeightBelowMinimum (height : Z)
| TotalPixelsExceedMaximum (total_pixels : Z)
| WidthAdjusted (width adjusted_width : Z)
| HeightAdjusted (height adjusted_height : Z)
| WidthSetToMinimum
| HeightSetToMinimum.

Definition validate_dimensions (width height : Z)
  : result (Z * Z * list message * list message) :=
  let errors := [] in
  let warnings := [] in
  let errors :=
    if width <? MIN_DIMENSION then errors ++ [WidthBelowMinimum width]
    else errors in
  let errors :=
    if height <? MIN_DIMENSION then errors ++ [HeightBelowMinimum height]
    else errors in
  let total_pixels := width * height in
  let errors :=
    if MAX_MEGAPIXELS <? total_pixels
    then errors ++ [TotalPixelsExceedMaximum total_pixels]
    else errors in
  let adjusted_width := width in
  let adjusted_height := height in
  '(adjusted_width, warnings) ←
    (if negb (width mod 16 =? 0) then
       adjusted_width ← round_to_multiple_of_16 width;
       mret (adjusted_width, warnings ++ [WidthAdjusted width adjusted_width])
     else mret (adjusted_width, warnings));
  '(adjusted_height, warnings) ←
    (if negb (height mod 16 =? 0) then
       adjusted_height ← round_to_multiple_of_16 height;
       mret (adjusted_height,
             warnings ++ [HeightAdjusted height adjusted_height])
     else mret (adjusted_height, warnings));
  let '(adjusted_width, warnings) :=
    if adjusted_width <? MIN_DIMENSION
    then (MIN_DIMENSION, warnings ++ [WidthSetToMinimum])
    else (adjusted_width, warnings) in
  let '(adjusted_height, warnings) :=
    if adjusted_height <? MIN_DIMENSION
    then (MIN_DIMENSION, warnings ++ [HeightSetToMinimum])
    else (adjusted_height, warnings) in
  mret (adjusted_width, adjusted_height, errors, warnings).

(** ** API client *)

Definition MAX_POLL_ATTEMPTS : nat := 120.
Definition POLL_INTERVAL : Z := 2.

(** *** [encode_image_to_base64] *)

(** A path: the components before the last one, and the last one. *)
Record Path : Type := { parents : list string; name : string }.

(** [s.rfind(c)]: the index of the last [c], or [-1]. *)
Fixpoint rfind_from (c : ascii) (s : string) (i : Z) (found : Z) : Z :=
  match s with
  | "" => found
  | String c' s' =>
      rfind_from c s' (i + 1) (if Ascii.eqb c' c then i else found)
  end.

Definition rfind (c : ascii) (s : string) : Z := rfind_from c s 0 (-1).

(** [Path.suffix]: the last component from its last dot on, unless that dot
    is its first or its last character. *)
Definition suffix (p : Path) : string :=
  let name := name p in
  let i := rfind "." name in
  if (0 <? i) && (i <? Z.of_nat (String.length name) - 1)
  then str_drop (Z.to_nat i) name
  else "".

(** [c.lower()] on the code points below 256: the letters A to Z, and the
    accented capitals from 192 to 222 except the multiplication sign. *)
Definition lower_char (c : ascii) : ascii :=
  let n := ord c in
  if ((65 <=? n) && (n <=? 90))
     || ((192 <=? n) && (n <=? 222) && negb (n =? 215))
  then ascii_of_N (Z.to_N (n + 32))
  else c.

Fixpoint lower (s : string) : string :=
  match s with
  | "" => ""
  | String c s' => String (lower_char c) (lower s')
  end.

(** [base64.b64encode], decoded as text. *)
Definition b64_alphabet : string :=
  "ABCDEFGHIJKLMNOPQRSTUVWXYZabcdefghijklmnopqrstuvwxyz0123456789+/".

Definition sextet (n : N) : ascii :=
  match String.get (N.to_nat n) b64_alphabet with
  | Some c => c
  | None => "="%char
  end.

Fixpoint b64encode (data : list Byte.byte) : string :=
  match data with
  | [] => ""
  | [x] =>
      let a := Byte.to_N x in
      String (sextet (a / 4)) (String (sextet (a mod 4 * 16)) "==")
  | [x; y] =>
      let a := Byte.to_N x in
      let b := Byte.to_N y in
      String (sextet (a / 4))
        (String (sextet (a mod 4 * 16 + b / 16))
           (String (sextet (b mod 16 * 4)) "="))
  | x :: y :: z :: data' =>
      let a := Byte.to_N x in
      let b := Byte.to_N y in
      let c := Byte.to_N z in
      String (sextet (a / 4))
        (String (sextet (a mod 4 * 16 + b / 16))
           (String (sextet (b mod 16 * 4 + c / 64))
              (String (sextet (c mod 64)) (b64encode data'))))
  end%N.

Definition mime_types : gmap string string :=
  <[".jpg" := "image/jpeg"]>
    (<[".jpeg" := "image/jpeg"]>
       (<[".png" := "image/png"]>
          (<[".webp" := "image/webp"]>
             (<[".gif" := "image/gif"]> ∅)))).

(** The file system is the function [files] from paths to contents; a path
    that cannot be opened raises. *)
Definition encode_image_to_base64 (files : Path → option (list Byte.byte))
    (image_path : Path) : result string :=
  match files image_path with
  | None => Raise FileNotFoundError
  | Some content =>
      let image_data := b64encode content in
      let extension := lower (suffix image_path) in
      let mime_type := default "image/jpeg" (mime_types !! extension) in
      Ok ("data:" +:+ mime_type +:+ ";base64," +:+ image_data)
  end.

(** *** [poll_for_result] *)

(** The JSON object of a poll response, with the keys the client reads. *)
Record TaskResult : Type := {
  status : option string;
  error : option string;
  sample : option string;
}.

Record Response : Type := { status_code : Z; json : TaskResult }.

(** What the loop does to the outside: a request, numbered by its attempt,
    and a pause. Printing is left out. *)
Inductive event : Type :=
| Request (attempt : nat)
| Sleep (seconds : Z).

(** [for attempt in range(MAX_POLL_ATTEMPTS)], with [responses attempt] the
    answer to the request of that attempt. The result is the log of events
    and either the returned object or the exit. *)
Fixpoint poll_attempts (responses : nat → Response) (attempts : list nat)
  : list event * result TaskResult :=
  match attempts with
  | [] => ([], Raise (SystemExit 1))
  | attempt :: attempts' =>
      let response := responses attempt in
      let '(log, outcome) :=
        if negb (status_code response =? 200) then
          let '(log, outcome) := poll_attempts responses attempts' in
          (Sleep POLL_INTERVAL :: log, outcome)
        else
          let result := json response in
          let status := status result in
          if bool_decide (status = Some "Ready") then ([], Ok result)
          else if bool_decide (status = Some "Error")
          then ([], Raise (SystemExit 1))
          else if bool_decide
                    (status ∈ [Some "Pending"; Some "Processing";
                               Some "Queued"])
          then
            let '(log, outcome) := poll_attempts responses attempts' in
            (Sleep POLL_INTERVAL :: log, outcome)
          else
            let '(log, outcome) := poll_attempts responses attempts' in
            (Sleep POLL_INTERVAL :: log, outcome) in
      (Request attempt :: log, outcome)
  end.

Definition poll_for_result (responses : nat → Response)
  : list event * result TaskResult :=
  poll_attempts responses (seq 0 MAX_POLL_ATTEMPTS).

(** ** Colour namer: character classes *)

(** A slice of the stripped string that [int(x, 16)] accepts: two
    hexadecimal digits; a hexadecimal digit after a white-space character
    or a sign; a hexadecimal digit before a white-space character; or a
    single hexadecimal digit, which is the last slice of a string of five
    characters. *)
Definition slice_ok (x : string) : bool :=
  match x with
  | String c "" => is_hex_digit c
  | String c1 (String c2 "") =>
      (is_hex_digit c1 && is_hex_digit c2)
      || ((is_space c1 || is_sign c1) && is_hex_digit c2)
      || (is_hex_digit c1 && is_space c2)
  | _ => false
  end.

(** Whether [int(x, 16)] returns. *)
Definition converts (x : string) : bool :=
  if int_16 x is Some _ then true else false.

(** Every character of the model, for checks by enumeration. *)
Definition all_ascii : list ascii := ascii_of_nat <$> seq 0 256.
(** ** Prompt compiler: the sections and two sample prompts *)

(** *** The sections, one by one

    Each section of the compiled prompt as a function of its source field:
    [None] when the section is omitted. *)

Definition labelled_section (label : string) (field : option string)
  : option string :=
  match field with
  | Some value => if truthy_str value then Some (label +:+ value) else None
  | None => None
  end.

Definition guarded_section (rendered : list string) (text : string)
  : option string :=
  if truthy_list rendered then Some text else None.

Definition subjects_section (sp : StructuredPrompt) : option string :=
  l ← subjects sp;
  guarded_section (subjects_loop 1 l []) (join LF (subjects_loop 1 l [])).

Definition color_palette_section (sp : StructuredPrompt) : option string :=
  colors ← color_palette sp;
  guarded_section colors
    ("Color palette: "
       +:+ join ", " (map (λ c, c +:+ " (" +:+ hex_to_color_name c +:+ ")")
                          colors)).

Definition camera_section (sp : StructuredPrompt) : option string :=
  cam ← camera sp;
  guarded_section (camera_parts cam) (join " | " (camera_parts cam)).

Definition text_elements_section (sp : StructuredPrompt) : option string :=
  l ← text_elements sp;
  guarded_section (text_loop l [])
    ("Text elements: " +:+ join "; " (text_loop l [])).

(** The fixed order: scene, subjects, style, colour palette, lighting,
    mood, background, composition, camera, text elements. *)
Definition sections_in_order (sp : StructuredPrompt) : list (option string) :=
  [ labelled_section "Scene: " (scene sp);
    subjects_section sp;
    labelled_section "Style: " (style sp);
    color_palette_section sp;
    labelled_section "Lighting: " (lighting sp);
    labelled_section "Mood and atmosphere: " (mood sp);
    labelled_section "Background: " (background sp);
    labelled_section "Composition: " (composition sp);
    camera_section sp;
    text_elements_section sp ].

(** What makes each section appear. A plain field: it holds a non-empty
    string. The palette: it holds a non-empty list. The camera: it has one
    of the three keys. Subjects and text elements: one entry has one of
    its keys. *)
Definition has_key (keys : list string) (d : gmap string string) : Prop :=
  Exists (λ key, is_Some (d !! key)) keys.

Definition subject_keys : list string := ["description"; "position"; "action"].
Definition camera_keys : list string := ["angle"; "lens"; "depth_of_field"].
Definition text_keys : list string := ["content"; "style"; "position"; "color"].

Definition nonempty_str (field : option string) : Prop :=
  ∃ value, field = Some value ∧ value ≠ "".

Definition nonempty_list {A} (field : option (list A)) : Prop :=
  ∃ l, field = Some l ∧ l ≠ [].

Definition nonempty_dict (field : option (gmap string string)) : Prop :=
  ∃ d, field = Some d ∧ d ≠ ∅.

Definition dict_renders (keys : list string)
    (field : option (gmap string string)) : Prop :=
  ∃ d, field = Some d ∧ has_key keys d.

Definition entry_renders (keys : list string)
    (field : option (list (gmap string string))) : Prop :=
  ∃ l, field = Some l ∧ Exists (has_key keys) l.

Definition section_sources (sp : StructuredPrompt) : list Prop :=
  [ nonempty_str (scene sp);
    entry_renders subject_keys (subjects sp);
    nonempty_str (style sp);
    nonempty_list (color_palette sp);
    nonempty_str (lighting sp);
    nonempty_str (mood sp);
    nonempty_str (background sp);
    nonempty_str (composition sp);
    dict_renders camera_keys (camera sp);
    entry_renders text_keys (text_elements sp) ].

(** Every field is missing or empty. *)
Definition all_absent_or_empty (sp : StructuredPrompt) : Prop :=
  ¬ nonempty_str (scene sp) ∧ ¬ nonempty_list (subjects sp)
  ∧ ¬ nonempty_str (style sp) ∧ ¬ nonempty_list (color_palette sp)
  ∧ ¬ nonempty_str (lighting sp) ∧ ¬ nonempty_str (mood sp)
  ∧ ¬ nonempty_str (background sp) ∧ ¬ nonempty_str (composition sp)
  ∧ ¬ nonempty_dict (camera sp) ∧ ¬ nonempty_list (text_elements sp).

Definition empty_prompt : StructuredPrompt :=
  {| scene := None; subjects := None; style := None; color_palette := None;
     lighting := None; mood := None; background := None;
     composition := None; camera := None; text_elements := None |}.

Definition coffee_shop : StructuredPrompt :=
  {| scene := Some "A cozy coffee shop";
     subjects := Some [ {[ "description" := "A black cat";
                           "position" := "on the chair";
                           "action" := "sleeping" ]};
                        ∅;
                        {[ "action" := "reading" ]} ];
     style := Some "Cinematic";
     color_palette := Some ["#000080"; "#F5F5DC"];
     lighting := Some "";
     mood := None;
     background := None;
     composition := Some "Rule of thirds";
     camera := Some {[ "lens" := "50mm"; "angle" := "Eye level" ]};
     text_elements := Some [ {[ "content" := "COFFEE"; "color" := "#2F1810" ]} ]
  |}.


(** A prompt whose only field holds one subject without any key. *)
Definition blank_subject_prompt : StructuredPrompt :=
  {| scene := None; subjects := Some [∅]; style := None;
     color_palette := None; lighting := None; mood := None;
     background := None; composition := None; camera := None;
     text_elements := None |}.

(** A prompt whose fields are all present and all empty. *)
Definition hollow_prompt : StructuredPrompt :=
  {| scene := Some ""; subjects := Some []; style := Some "";
     color_palette := Some []; lighting := Some ""; mood := Some "";
     background := Some ""; composition := Some ""; camera := Some ∅;
     text_elements := Some [] |}.
(** ** API client: kinds of responses and sample data *)

(** A response that ends the polling with success, one that ends it with
    the exit, and the others. *)
Definition is_ready (r : Response) : Prop :=
  status_code r = 200 ∧ status (json r) = Some "Ready".

Definition is_error (r : Response) : Prop :=
  status_code r = 200 ∧ status (json r) = Some "Error".

Definition is_transient (r : Response) : Prop :=
  ¬ is_ready r ∧ ¬ is_error r.

Definition processing : Response :=
  {| status_code := 200;
     json := {| status := Some "Processing"; error := None; sample := None |} |}.

Definition ready_result : TaskResult :=
  {| status := Some "Ready"; error := None; sample := Some "https://x/y.png" |}.

Definition failed : Response :=
  {| status_code := 200;
     json := {| status := Some "Error"; error := Some "bad input";
                sample := None |} |}.

Definition unavailable : Response :=
  {| status_code := 503;
     json := {| status := None; error := None; sample := None |} |}.

(** Two polls in progress, then the result. *)
Definition ready_at_third (attempt : nat) : Response :=
  match attempt with
  | 0%nat | 1%nat => processing
  | _ => {| status_code := 200; json := ready_result |}
  end.

Definition bytes_Man : list Byte.byte := [Byte.x4d; Byte.x61; Byte.x6e].

(** The extensions with a MIME type of their own. *)
Definition known_extensions : list string :=
  [".jpg"; ".jpeg"; ".png"; ".webp"; ".gif"].

(** A Ready response comes within the first [n] attempts, before any Error
    response. *)
Definition ready_before_error (responses : nat → Response) (n : nat) : Prop :=
  ∃ i, (i < n)%nat ∧ is_ready (responses i)
       ∧ ∀ j, (j < i)%nat → ¬ is_error (responses j).

(** The first attempt whose response is Ready, when no earlier response is
    Ready or Error. *)
Definition first_ready (responses : nat → Response) (i : nat) : Prop :=
  is_ready (responses i) ∧ ∀ j, (j < i)%nat → is_transient (responses j).

(** The log of [i] attempts that were retried, from attempt [a] on. *)
Fixpoint retried (a i : nat) : list event :=
  match i with
  | O => []
  | S i' => Request a :: Sleep POLL_INTERVAL :: retried (S a) i'
  end.

(** ** Colour namer: the names *)

(** The twelve names the classification can give. *)
Definition color_names : list string :=
  [ "white/cream"; "black/dark"; "bright red/coral"; "red/burgundy";
    "bright green/lime"; "green/forest"; "bright blue/sky"; "blue/navy";
    "golden/amber"; "brown/tan"; "pink/rose"; "gray" ].

(** ** [validate_structured_prompt] *)

(** [s.startswith(prefix)] *)
Fixpoint startswith (prefix s : string) : bool :=
  match prefix, s with
  | "", _ => true
  | String _ _, "" => false
  | String p prefix', String c s' => Ascii.eqb p c && startswith prefix' s'
  end.

(** [not structured.get(key)] for a text field: missing or empty. *)
Definition get_str (field : option string) : bool :=
  match field with
  | Some value => truthy_str value
  | None => false
  end.

(** [structured.get(key)] for a list field, as a truth value. *)
Definition get_list {A} (field : option (list A)) : bool :=
  match field with
  | Some l => truthy_list l
  | None => false
  end.

(** The loop over the palette. *)
Fixpoint palette_warnings (colors : list string) (warnings : list string)
  : list string :=
  match colors with
  | [] => warnings
  | color :: colors' =>
      let warnings :=
        if negb (startswith "#" color)
           || negb (Nat.eqb (String.length color) 7)
        then warnings
               ++ ["Invalid hex color format: " +:+ color
                     +:+ " (should be #RRGGBB)"]
        else warnings in
      palette_warnings colors' warnings
  end.

(** The loop over the text elements. *)
Fixpoint text_warnings (texts : list (gmap string string))
    (warnings : list string) : list string :=
  match texts with
  | [] => warnings
  | text :: texts' =>
      let warnings :=
        match text !! "content" with
        | Some content =>
            if Nat.ltb 50 (String.length content)
            then warnings
                   ++ ["Text element '" +:+ str_take 20 content
                         +:+ "...' is long - AI may struggle with lengthy text"]
            else warnings
        | None => warnings
        end in
      text_warnings texts' warnings
  end.

Definition validate_structured_prompt (structured : StructuredPrompt)
  : list string :=
  let warnings := [] in
  let warnings :=
    if negb (get_str (scene structured))
    then warnings
           ++ ["No 'scene' description provided - consider adding one for better results"]
    else warnings in
  let warnings :=
    if negb (get_list (subjects structured))
    then warnings
           ++ ["No 'subjects' defined - the image may lack a clear focal point"]
    else warnings in
  let warnings :=
    match color_palette structured with
    | Some colors =>
        if truthy_list colors then palette_warnings colors warnings
        else warnings
    | None => warnings
    end in
  let warnings :=
    match text_elements structured with
    | Some texts =>
        if truthy_list texts then text_warnings texts warnings
        else warnings
    | None => warnings
    end in
  warnings.

(** *** What the validation looks at *)

(** The format check of a palette entry: a leading [#] and seven
    characters in all. *)
Definition color_format_ok (color : string) : Prop :=
  startswith "#" color = true ∧ String.length color = 7%nat.

(** The length check of a text element: no content, or one of at most 50
    characters. *)
Definition text_length_ok (text : gmap string string) : Prop :=
  ∀ content, text !! "content" = Some content →
             (String.length content ≤ 50)%nat.

(** The line of a subject, numbered [i], when it has one. *)
Definition subject_line (i : nat) (subject : gmap string string)
  : option string :=
  if truthy_list (subject_parts subject)
  then Some ("Subject " +:+ str_of_index i +:+ ": "
               +:+ join ", " (subject_parts subject))
  else None.

(** A prompt with a scene, two subjects, a palette entry that fails the
    format check and a text that is too long. *)
Definition noisy_prompt : StructuredPrompt :=
  {| scene := Some "A quiet harbour";
     subjects := Some [ ∅; {[ "description" := "A red boat" ]} ];
     style := None;
     color_palette := Some ["#000080"; "navy"];
     lighting := None; mood := None; background := None;
     composition := None; camera := None;
     text_elements :=
       Some [ {[ "content" :=
                   "This sentence is far too long to be drawn on a harbour wall" ]} ]
  |}.

(** A prompt that passes the validation. *)
Definition quiet_prompt : StructuredPrompt :=
  {| scene := Some "A quiet harbour";
     subjects := Some [ {[ "description" := "A red boat" ]} ];
     style := None;
     color_palette := Some ["#000080"];
     lighting := None; mood := None; background := None;
     composition := None; camera := None;
     text_elements := Some [ {[ "content" := "HARBOUR" ]} ]
  |}.

(** ** Configuration and [get_dimensions] *)

(** The values of the CONFIGURATION block, which the user edits. *)
Record Config : Type := {
  MODE : string;
  INPUT_IMAGE_FILENAME : string;
  STRUCTURED_PROMPT : StructuredPrompt;
  USE_STRUCTURED_PROMPT : bool;
  SIMPLE_PROMPT : string;
  ASPECT_RATIO : option string;
  WIDTH : Z;
  HEIGHT : Z;
  OUTPUT_FORMAT : string;
  SEED : option Z;
  SAFETY_TOLERANCE : Z;
  SAVE_PROMPT_JSON : bool;
}.

Definition ASPECT_RATIO_PRESETS : gmap string (Z * Z) :=
  list_to_map
    [ ("1:1", (1024, 1024));
      ("1:1_hd", (1536, 1536));
      ("1:1_max", (2048, 2048));
      ("16:9", (1920, 1080));
      ("16:9_4k", (2560, 1440));
      ("9:16", (1080, 1920));
      ("9:16_4k", (1440, 2560));
      ("4:3", (1536, 1152));
      ("3:4", (1152, 1536));
      ("3:2", (1536, 1024));
      ("2:3", (1024, 1536));
      ("21:9", (2016, 864));
      ("9:21", (864, 2016)) ].

(** [get_dimensions]: the preset or the custom dimensions, validated; any
    error exits with status 1. What the function prints is left out, and
    with it the megapixel figure of the last message. *)
Definition get_dimensions (cfg : Config) : result (Z * Z) :=
  '(width, height) ←
    match ASPECT_RATIO cfg with
    | Some aspect_ratio =>
        match ASPECT_RATIO_PRESETS !! aspect_ratio with
        | None => Raise (SystemExit 1)
        | Some preset => Ok preset
        end
    | None => Ok (WIDTH cfg, HEIGHT cfg)
    end;
  '(adj_width, adj_height, errors, warnings) ←
    validate_dimensions width height;
  if truthy_list errors then Raise (SystemExit 1)
  else Ok (adj_width, adj_height).

(** The configuration as the script ships it. *)
Definition shipped_config (sp : StructuredPrompt) : Config :=
  {| MODE := "generate"; INPUT_IMAGE_FILENAME := "input.png";
     STRUCTURED_PROMPT := sp; USE_STRUCTURED_PROMPT := true;
     SIMPLE_PROMPT := "Your plain text prompt here if not using structured mode";
     ASPECT_RATIO := Some "4:3"; WIDTH := 1536; HEIGHT := 1152;
     OUTPUT_FORMAT := "png"; SEED := None; SAFETY_TOLERANCE := 5;
     SAVE_PROMPT_JSON := true |}.

(** The same with another preset, or with custom dimensions. *)
Definition with_aspect_ratio (cfg : Config) (aspect_ratio : option string)
    (width height : Z) : Config :=
  {| MODE := MODE cfg; INPUT_IMAGE_FILENAME := INPUT_IMAGE_FILENAME cfg;
     STRUCTURED_PROMPT := STRUCTURED_PROMPT cfg;
     USE_STRUCTURED_PROMPT := USE_STRUCTURED_PROMPT cfg;
     SIMPLE_PROMPT := SIMPLE_PROMPT cfg;
     ASPECT_RATIO := aspect_ratio; WIDTH := width; HEIGHT := height;
     OUTPUT_FORMAT := OUTPUT_FORMAT cfg; SEED := SEED cfg;
     SAFETY_TOLERANCE := SAFETY_TOLERANCE cfg;
     SAVE_PROMPT_JSON := SAVE_PROMPT_JSON cfg |}.

(** The dimensions the configuration asks for: those of the preset, when
    the preset exists, or the custom ones. *)
Definition requested_dimensions (cfg : Config) : option (Z * Z) :=
  match ASPECT_RATIO cfg with
  | Some aspect_ratio => ASPECT_RATIO_PRESETS !! aspect_ratio
  | None => Some (WIDTH cfg, HEIGHT cfg)
  end.

(** ** Polling: what a log adds up to *)

(** The number of requests of a log, and the seconds it pauses. *)
Fixpoint requests_sent (log : list event) : nat :=
  match log with
  | [] => 0
  | Request _ :: log' => S (requests_sent log')
  | Sleep _ :: log' => requests_sent log'
  end.

Fixpoint seconds_slept (log : list event) : Z :=
  match log with
  | [] => 0
  | Request _ :: log' => seconds_slept log'
  | Sleep seconds :: log' => seconds + seconds_slept log'
  end.

(** The MIME types of the table. *)
Definition known_mime_types : list string :=
  ["image/jpeg"; "image/png"; "image/webp"; "image/gif"].

(** ** Submission, download and the main function *)

Definition API_BASE_URL : string := "https://api.bfl.ai".
Definition FLUX2_PRO_ENDPOINT : string := "/v1/flux-2-pro".

(** The values of a request body: text or a number. *)
Inductive pyvalue : Type :=
| PyStr (s : string)
| PyInt (n : Z).

(** A POST request as the client builds it. *)
Record HttpRequest : Type := {
  url : string;
  headers : gmap string string;
  payload : gmap string pyvalue;
}.

(** The answer to the submission: the code, and of the JSON object the
    key [id], the only one the client does more with than print it. *)
Record SubmitResponse : Type := {
  submit_status_code : Z;
  task_id : option string;
}.

(** The answer to the download. *)
Record DownloadResponse : Type := {
  download_status_code : Z;
  content : list Byte.byte;
}.

(** What [save_prompt_metadata] hands to [json.dump]. *)
Record Metadata : Type := {
  timestamp : string;
  structured_prompt : StructuredPrompt;
  generated_prompt : string;
  settings_aspect_ratio : option string;
  settings_output_format : string;
  settings_seed : option Z;
  settings_safety_tolerance : Z;
}.

(** The outside of the script: the environment variable, the directory of
    the script with its files ([in_script_dir name] is [script_dir / name],
    and [json_sibling path] is [path.with_suffix(".json")], both as pathlib
    computes them), the two clock readings, and the service: what it
    answers to a submission, to the polls of a task and to a download. *)
Record World : Type := {
  BFL_API_KEY : option string;
  in_script_dir : string → Path;
  path_exists : Path → bool;
  read_file : Path → option (list Byte.byte);
  json_sibling : Path → Path;
  now_strftime : string;
  now_isoformat : string;
  post : HttpRequest → SubmitResponse;
  get_result : string → string → nat → Response;
  get_image : string → DownloadResponse;
}.

(** What the script does to the outside, in order. Printing is left out,
    and writing a file always succeeds. *)
Inductive effect : Type :=
| Posted (request : HttpRequest)
| Polled (task : string) (e : event)
| Fetched (image_url : string)
| Wrote (path : Path) (bytes : list Byte.byte)
| WroteJson (path : Path) (metadata : Metadata).

(** A run: the effects so far, and the value or the exception. *)
Definition io (A : Type) : Type := (list effect * result A)%type.

#[global] Instance io_ret : MRet io := λ A a, ([], Ok a).
#[global] Instance io_bind : MBind io := λ A B f m,
  match m.2 with
  | Ok a => (m.1 ++ (f a).1, (f a).2)
  | Raise e => (m.1, Raise e)
  end.

(** A step without effects, and [sys.exit(code)]. *)
Definition pure {A} (r : result A) : io A := ([], r).
Definition sys_exit {A} (code : Z) : io A := ([], Raise (SystemExit code)).

(** [get_api_key]: the variable must be set and not empty. *)
Definition get_api_key (w : World) : result string :=
  match BFL_API_KEY w with
  | Some api_key =>
      if truthy_str api_key then Ok api_key else Raise (SystemExit 1)
  | None => Raise (SystemExit 1)
  end.

Definition submit_task (cfg : Config) (w : World) (api_key prompt : string)
    (width height : Z) (input_image_path : option Path)
  : io SubmitResponse :=
  let headers : gmap string string :=
    <["x-key" := api_key]> (<["Content-Type" := "application/json"]> ∅) in
  let payload : gmap string pyvalue :=
    <["prompt" := PyStr prompt]>
      (<["width" := PyInt width]>
         (<["height" := PyInt height]>
            (<["output_format" := PyStr (OUTPUT_FORMAT cfg)]>
               (<["safety_tolerance" := PyInt (SAFETY_TOLERANCE cfg)]> ∅)))) in
  let payload :=
    match SEED cfg with
    | Some seed => <["seed" := PyInt seed]> payload
    | None => payload
    end in
  payload ←
    match input_image_path with
    | Some path =>
        input_image ← pure (encode_image_to_base64 (read_file w) path);
        mret (<["input_image" := PyStr input_image]> payload)
    | None => mret payload
    end;
  let url := API_BASE_URL +:+ FLUX2_PRO_ENDPOINT in
  let request := {| url := url; headers := headers; payload := payload |} in
  let response := post w request in
  ([Posted request],
   if negb (submit_status_code response =? 200) then Raise (SystemExit 1)
   else Ok response).

(** [poll_for_result] inside a run, against the polls of the service for
    this key and this task. *)
Definition poll (w : World) (api_key task : string) : io TaskResult :=
  let '(log, outcome) := poll_for_result (get_result w api_key task) in
  (Polled task <$> log, outcome).

Definition download_and_save_image (w : World) (image_url : string)
    (output_path : Path) : io unit :=
  let response := get_image w image_url in
  if negb (download_status_code response =? 200)
  then ([Fetched image_url], Raise (SystemExit 1))
  else ([Fetched image_url; Wrote output_path (content response)], Ok tt).

Definition save_prompt_metadata (cfg : Config) (w : World)
    (output_path : Path) (structured_prompt : StructuredPrompt)
    (final_prompt : string) : io unit :=
  let metadata :=
    {| timestamp := now_isoformat w;
       structured_prompt := structured_prompt;
       generated_prompt := final_prompt;
       settings_aspect_ratio := ASPECT_RATIO cfg;
       settings_output_format := OUTPUT_FORMAT cfg;
       settings_seed := SEED cfg;
       settings_safety_tolerance := SAFETY_TOLERANCE cfg |} in
  let json_path := json_sibling w output_path in
  ([WroteJson json_path metadata], Ok tt).

(** [value] when it is a non-empty string, the exit otherwise:
    [if not value: sys.exit(1)]. *)
Definition require_str (value : option string) : io string :=
  match value with
  | Some s => if truthy_str s then mret s else sys_exit 1
  | None => sys_exit 1
  end.

Definition main (cfg : Config) (w : World) : io unit :=
  (* Get API key *)
  api_key ← pure (get_api_key w);
  (* Get and validate dimensions *)
  '(width, height) ← pure (get_dimensions cfg);
  (* Build the prompt; the warnings of the validation are only printed *)
  let final_prompt :=
    if USE_STRUCTURED_PROMPT cfg
    then build_prompt_from_structure (STRUCTURED_PROMPT cfg)
    else SIMPLE_PROMPT cfg in
  (* Prepare input image path for edit mode *)
  input_image_path ←
    (if String.eqb (MODE cfg) "edit" then
       let input_image_path := in_script_dir w (INPUT_IMAGE_FILENAME cfg) in
       if negb (path_exists w input_image_path) then sys_exit 1
       else mret (Some input_image_path)
     else mret None);
  (* Submit the task *)
  task_response ←
    submit_task cfg w api_key final_prompt width height input_image_path;
  task ← require_str (task_id task_response);
  (* Poll for result *)
  result ← poll w api_key task;
  (* Get the image URL *)
  image_url ← require_str (sample result);
  (* Generate output filename *)
  let timestamp := now_strftime w in
  let mode_prefix :=
    if String.eqb (MODE cfg) "edit" then "edited" else "generated" in
  let output_filename :=
    mode_prefix +:+ "_" +:+ timestamp +:+ "." +:+ OUTPUT_FORMAT cfg in
  let output_path := in_script_dir w output_filename in
  (* Download and save the image *)
  _ ← download_and_save_image w image_url output_path;
  (* Save prompt metadata if enabled *)
  if SAVE_PROMPT_JSON cfg && USE_STRUCTURED_PROMPT cfg
  then save_prompt_metadata cfg w output_path (STRUCTURED_PROMPT cfg)
         final_prompt
  else mret tt.

(** The request [submit_task] builds from a payload. *)
Definition submit_request (api_key : string) (payload : gmap string pyvalue)
  : HttpRequest :=
  {| url := API_BASE_URL +:+ FLUX2_PRO_ENDPOINT;
     headers :=
       <["x-key" := api_key]> (<["Content-Type" := "application/json"]> ∅);
     payload := payload |}.

(** The keys a request body can have. *)
Definition payload_keys : list string :=
  [ "prompt"; "width"; "height"; "output_format"; "safety_tolerance";
    "seed"; "input_image" ].

(** A service that accepts the task, reports it ready at the third poll
    and serves three bytes, seen from a directory where every file
    exists. *)
Definition friendly_world : World :=
  {| BFL_API_KEY := Some "secret";
     in_script_dir := λ name, {| parents := ["home"]; name := name |};
     path_exists := λ _, true;
     read_file := λ _, Some bytes_Man;
     json_sibling :=
       λ p, {| parents := parents p;
               name :=
                 str_take
                   (String.length (name p) - String.length (suffix p))%nat
                   (name p) +:+ ".json" |};
     now_strftime := "20240101_120000";
     now_isoformat := "2024-01-01T12:00:00";
     post := λ _, {| submit_status_code := 200; task_id := Some "abc123" |};
     get_result := λ _ _, ready_at_third;
     get_image := λ _, {| download_status_code := 200; content := bytes_Man |}
  |}.

(** The body before the input image is added. *)
Definition base_payload (cfg : Config) (prompt : string) (width height : Z)
  : gmap string pyvalue :=
  let payload : gmap string pyvalue :=
    <["prompt" := PyStr prompt]>
      (<["width" := PyInt width]>
         (<["height" := PyInt height]>
            (<["output_format" := PyStr (OUTPUT_FORMAT cfg)]>
               (<["safety_tolerance" := PyInt (SAFETY_TOLERANCE cfg)]> ∅)))) in
  match SEED cfg with
  | Some seed => <["seed" := PyInt seed]> payload
  | None => payload
  end.

(** Sending a body: one request, and the exit unless the answer is 200. *)
Definition sent (w : World) (api_key : string) (payload : gmap string pyvalue)
  : io SubmitResponse :=
  ([Posted (submit_request api_key payload)],
   if negb (submit_status_code (post w (submit_request api_key payload)) =? 200)
   then Raise (SystemExit 1)
   else Ok (post w (submit_request api_key payload))).

(** What [main] computes on the way: the prompt it submits, the input
    image of the edit mode, the path of the image it writes and the
    metadata it saves. *)
Definition final_prompt (cfg : Config) : string :=
  if USE_STRUCTURED_PROMPT cfg
  then build_prompt_from_structure (STRUCTURED_PROMPT cfg)
  else SIMPLE_PROMPT cfg.

Definition input_image_path (cfg : Config) (w : World) : option Path :=
  if String.eqb (MODE cfg) "edit"
  then Some (in_script_dir w (INPUT_IMAGE_FILENAME cfg))
  else None.

Definition output_path (cfg : Config) (w : World) : Path :=
  in_script_dir w
    ((if String.eqb (MODE cfg) "edit" then "edited" else "generated")
       +:+ "_" +:+ now_strftime w +:+ "." +:+ OUTPUT_FORMAT cfg).

Definition saved_metadata (cfg : Config) (w : World) : Metadata :=
  {| timestamp := now_isoformat w;
     structured_prompt := STRUCTURED_PROMPT cfg;
     generated_prompt := final_prompt cfg;
     settings_aspect_ratio := ASPECT_RATIO cfg;
     settings_output_format := OUTPUT_FORMAT cfg;
     settings_seed := SEED cfg;
     settings_safety_tolerance := SAFETY_TOLERANCE cfg |}.

(** The run of [main] from the download on, for an image address. *)
Definition run_download (cfg : Config) (w : World) (image_url : string)
  : io unit :=
  if negb (download_status_code (get_image w image_url) =? 200)
  then ([Fetched image_url], Raise (SystemExit 1))
  else
    ([Fetched image_url;
      Wrote (output_path cfg w) (content (get_image w image_url))]
       ++ (if SAVE_PROMPT_JSON cfg && USE_STRUCTURED_PROMPT cfg
           then [WroteJson (json_sibling w (output_path cfg w))
                   (saved_metadata cfg w)]
           else []),
     Ok tt).

(** The run from the polling on, for a task. *)
Definition run_poll (cfg : Config) (w : World) (api_key task : string)
  : io unit :=
  let polled := poll_for_result (get_result w api_key task) in
  match polled.2 with
  | Raise e => (Polled task <$> polled.1, Raise e)
  | Ok result =>
      match sample result with
      | Some (String c s) =>
          ((Polled task <$> polled.1)
             ++ (run_download cfg w (String c s)).1,
           (run_download cfg w (String c s)).2)
      | _ => (Polled task <$> polled.1, Raise (SystemExit 1))
      end
  end.

(** The run from the submission on, for a key and dimensions. *)
Definition run_submit (cfg : Config) (w : World) (api_key : string)
    (width height : Z) : io unit :=
  let submitted :=
    submit_task cfg w api_key (final_prompt cfg) width height
      (input_image_path cfg w) in
  match submitted.2 with
  | Raise e => (submitted.1, Raise e)
  | Ok task_response =>
      match task_id task_response with
      | Some (String c s) =>
          (submitted.1 ++ (run_poll cfg w api_key (String c s)).1,
           (run_poll cfg w api_key (String c s)).2)
      | _ => (submitted.1, Raise (SystemExit 1))
      end
  end.

(** ** Colour namer: properties *)

Example int_16_ff : int_16 "fF" = Some 255.
Proof. reflexivity. Qed.

Example int_16_signed : int_16 "-a" = Some (-10) ∧ int_16 "+1" = Some 1.
Proof. split; reflexivity. Qed.

Example int_16_spaces : int_16 " a" = Some 10 ∧ int_16 "a " = Some 10.
Proof. split; reflexivity. Qed.

Example int_16_errors :
  int_16 "" = None ∧ int_16 "0x" = None ∧ int_16 "1_" = None
  ∧ int_16 "_1" = None ∧ int_16 "+ " = None ∧ int_16 "g1" = None.
Proof. repeat split; reflexivity. Qed.

Example int_16_long : int_16 " -0x_1f_f " = Some (-511).
Proof. reflexivity. Qed.

Example name_navy : hex_to_color_name "#000080" = "blue/navy".
Proof. reflexivity. Qed.

Example name_saddle_brown : hex_to_color_name "#8B4513" = "red/burgundy".
Proof. reflexivity. Qed.

Example name_beige : hex_to_color_name "#F5F5DC" = "white/cream".
Proof. reflexivity. Qed.

Example name_fallback : hex_to_color_name "#646464" = "(646464)".
Proof. reflexivity. Qed.

Example name_golden : hex_to_color_name "#C8C800" = "golden/amber".
Proof. reflexivity. Qed.

(** *** Which slices convert *)

#[local] Arguments is_space : simpl never.
#[local] Arguments digit_value : simpl never.
#[local] Arguments int_16 : simpl never.

Lemma all_ascii_complete c : c ∈ all_ascii.
Proof.
  rewrite <- (ascii_nat_embedding c). apply list_elem_of_fmap_2.
  apply elem_of_seq. pose proof (nat_ascii_bounded c). lia.
Qed.

(** The conversion of every string of one or two characters, computed and
    compared with [slice_ok]. *)
Lemma converts_slice_ok_checked :
  forallb (λ c1,
    Bool.eqb (converts (String c1 "")) (slice_ok (String c1 ""))
    && forallb (λ c2,
         Bool.eqb (converts (String c1 (String c2 "")))
           (slice_ok (String c1 (String c2 "")))) all_ascii) all_ascii
  = true.
Proof. vm_compute. reflexivity. Qed.

Lemma converts_slice_ok x :
  (String.length x ≤ 2)%nat → converts x = slice_ok x.
Proof.
  pose proof converts_slice_ok_checked as H.
  rewrite forallb_forall in H.
  destruct x as [|c1 [|c2 [|c3 x]]]; cbn [String.length]; [done | | | lia].
  - intros _. specialize (H c1). rewrite <- list_elem_of_In in H.
    specialize (H (all_ascii_complete c1)).
    apply andb_prop in H as [H _]. by apply Bool.eqb_prop.
  - intros _. specialize (H c1). rewrite <- list_elem_of_In in H.
    specialize (H (all_ascii_complete c1)).
    apply andb_prop in H as [_ H]. rewrite forallb_forall in H.
    specialize (H c2). rewrite <- list_elem_of_In in H.
    specialize (H (all_ascii_complete c2)). by apply Bool.eqb_prop.
Qed.

Lemma str_take_length n s : (String.length (str_take n s) ≤ n)%nat.
Proof.
  revert s. induction n as [|n IH]; intros [|c s]; cbn; [lia .. |].
  specialize (IH s). lia.
Qed.

Lemma slice_length i j s : (String.length (slice i j s) ≤ j - i)%nat.
Proof. apply str_take_length. Qed.

Lemma parse_channels_slice_ok s :
  parse_channels s = None
  ↔ slice_ok (slice 0 2 s) && slice_ok (slice 2 4 s) && slice_ok (slice 4 6 s)
    = false.
Proof.
  rewrite <- !converts_slice_ok by apply slice_length.
  unfold parse_channels, converts.
  generalize (int_16 (slice 0 2 s)), (int_16 (slice 2 4 s)),
    (int_16 (slice 4 6 s)).
  by intros [r|] [g|] [b|].
Qed.

Lemma lstrip_hash_head x : String.get 0 (lstrip "#" x) ≠ Some "#"%char.
Proof.
  induction x as [|c x IH]; cbn; [done |]. rewrite orb_false_r.
  destruct (Ascii.eqb_spec c "#") as [->|Hc]; [done |].
  cbn. by intros [= ->].
Qed.

Lemma lstrip_hash_id x :
  String.get 0 x ≠ Some "#"%char → lstrip "#" x = x.
Proof.
  destruct x as [|c x]; cbn; [done |]. rewrite orb_false_r.
  by destruct (Ascii.eqb_spec c "#") as [->|Hc].
Qed.

Lemma length_append s t :
  String.length (s +:+ t) = (String.length s + String.length t)%nat.
Proof.
  induction s as [|c s IH]; [done |].
  change (S (String.length (s +:+ t))
          = S (String.length s + String.length t)).
  by rewrite IH.
Qed.

Lemma parenthesised_neq s : "(" +:+ s +:+ ")" ≠ s.
Proof.
  intros E. apply (f_equal String.length) in E.
  rewrite !length_append in E. cbn in E. lia.
Qed.

Lemma slice_short s :
  (String.length s < 5)%nat → slice_ok (slice 4 6 s) = false.
Proof.
  destruct s as [|c0 [|c1 [|c2 [|c3 [|c4 s]]]]]; cbn [String.length];
    [done .. | lia].
Qed.

(** When the conversions succeed the result is one of the names, which
    neither start with [#] nor convert themselves, or the stripped string
    in parentheses. *)
Lemma hex_to_color_name_named hex_color r g b :
  parse_channels (lstrip "#" hex_color) = Some (r, g, b) →
  (lstrip "#" (hex_to_color_name hex_color) = hex_to_color_name hex_color
   ∧ parse_channels (hex_to_color_name hex_color) = None)
  ∨ hex_to_color_name hex_color = "(" +:+ lstrip "#" hex_color +:+ ")".
Proof.
  intros E. unfold hex_to_color_name. rewrite E.
  repeat case_match; first [by right | left; split; reflexivity].
Qed.

(** C2. With [stripped] the argument without its leading [#]: the function
    returns [stripped] exactly when one of the three slices is rejected by
    [int(x, 16)], which includes every string with fewer than five
    characters left; and it returns the argument itself exactly when, in
    addition, the argument does not start with [#]. In every other case the
    result is a colour name or the stripped string in parentheses. The
    strings are those of the model: code points below 256. *)
Theorem hex_to_color_name_unchanged_iff hex_color :
  let stripped := lstrip "#" hex_color in
  let converted :=
    slice_ok (slice 0 2 stripped) && slice_ok (slice 2 4 stripped)
    && slice_ok (slice 4 6 stripped) in
  (hex_to_color_name hex_color = stripped ↔ converted = false)
  ∧ (hex_to_color_name hex_color = hex_color
     ↔ converted = false ∧ String.get 0 hex_color ≠ Some "#"%char)
  ∧ ((String.length stripped < 5)%nat → converted = false).
Proof.
  intros stripped converted.
  assert (converted = false ↔ parse_channels stripped = None) as Hconv.
  { symmetry. apply parse_channels_slice_ok. }
  assert (parse_channels stripped = None →
          hex_to_color_name hex_color = stripped) as Hnone.
  { intros E. unfold hex_to_color_name. fold stripped. by rewrite E. }
  split; [| split].
  - rewrite Hconv. split; [| done]. intros Hres.
    destruct (parse_channels stripped) as [[[r g] b]|] eqn:E; [| done].
    destruct (hex_to_color_name_named _ _ _ _ E) as [[_ Hn]|Hp].
    + rewrite Hres in Hn. congruence.
    + rewrite Hres in Hp. by apply eq_sym, parenthesised_neq in Hp.
  - rewrite Hconv. split.
    + intros Hres.
      destruct (parse_channels stripped) as [[[r g] b]|] eqn:E.
      * exfalso.
        destruct (hex_to_color_name_named _ _ _ _ E) as [[Hs Hn]|Hp].
        -- rewrite Hres in Hs, Hn. fold stripped in Hs. congruence.
        -- rewrite Hres in Hp.
           assert (stripped = hex_color) as Hid.
           { apply lstrip_hash_id. by rewrite Hp. }
           fold stripped in Hp. rewrite Hid in Hp.
           by apply eq_sym, parenthesised_neq in Hp.
      * split; [done |]. rewrite <- Hres, (Hnone eq_refl).
        apply lstrip_hash_head.
    + intros [E Hhead]. rewrite (Hnone E). by apply lstrip_hash_id.
  - intros Hlen. unfold converted. by rewrite slice_short, andb_false_r.
Qed.

Example name_rejected_sign : hex_to_color_name "+-1234" = "+-1234".
Proof. reflexivity. Qed.

Example name_unparsed : hex_to_color_name "#GGGGGG" = "GGGGGG".
Proof. reflexivity. Qed.

(** The string that comes back is not always the argument, a wrong length
    is not always detected, and neither is every character that is not a
    hexadecimal digit. *)
Lemma hex_to_color_name_malformed_changed :
  ¬ (∀ hex_color, String.length hex_color ≠ 7%nat →
       hex_to_color_name hex_color = hex_color)
  ∧ ¬ (∀ hex_color,
         (∃ i c, String.get (S i) hex_color = Some c ∧ is_hex_digit c = false) →
         hex_to_color_name hex_color = hex_color).
Proof.
  split; intros H.
  - assert (hex_to_color_name "#12" = "#12") as E by by apply H.
    vm_compute in E. discriminate E.
  - assert (hex_to_color_name "#+1+2+3" = "#+1+2+3") as E.
    { apply H. by exists 0%nat, "+"%char. }
    vm_compute in E. discriminate E.
Qed.

Example name_short : hex_to_color_name "#12" = "12".
Proof. reflexivity. Qed.

Example name_too_long : hex_to_color_name "#1234567" = "blue/navy".
Proof. reflexivity. Qed.

Example name_odd_length : hex_to_color_name "#12345" = "green/forest".
Proof. reflexivity. Qed.

Example name_signed : hex_to_color_name "#+1+2+3" = "black/dark".
Proof. reflexivity. Qed.

(** *** The classification *)

(** C9. The golden and the brown names are only given on a tie between red
    and green: a strictly greatest channel was already named by one of the
    three rules before them. *)
Theorem golden_brown_only_on_red_green_tie hex_color r g b :
  parse_channels (lstrip "#" hex_color) = Some (r, g, b) →
  hex_to_color_name hex_color = "golden/amber"
  ∨ hex_to_color_name hex_color = "brown/tan" →
  r = g.
Proof.
  intros E. unfold hex_to_color_name. rewrite E, !Z.gtb_ltb.
  repeat match goal with
  | |- context [?x <? ?y] =>
      destruct (Z.ltb_spec x y); cbn [andb orb negb]
  end.
  all: first [lia | by intros [[=]|[=]]].
Qed.

Lemma golden_brown_only_on_red_green_tie_witness :
  parse_channels (lstrip "#" "#C8C800") = Some (200, 200, 0)
  ∧ hex_to_color_name "#C8C800" = "golden/amber"
  ∧ 200 = 200.
Proof.
  split; [reflexivity |]. split; [reflexivity |].
  apply (golden_brown_only_on_red_green_tie "#C8C800" 200 200 0);
    [reflexivity | left; reflexivity].
Defined.

(** *** Well-formed colours convert *)

Lemma digit_value_ord c d :
  digit_value c = Some d →
  0 ≤ d < 16 ∧ (48 ≤ ord c ≤ 57 ∨ 65 ≤ ord c ≤ 70 ∨ 97 ≤ ord c ≤ 102).
Proof.
  unfold digit_value. repeat case_match; intros [= <-]; lia.
Qed.

Lemma digit_not_space c d : digit_value c = Some d → is_space c = false.
Proof.
  intros H. apply digit_value_ord in H as [_ H]. unfold is_space. lia.
Qed.

Lemma digit_not_char c d ch :
  digit_value c = Some d → digit_value ch = None → Ascii.eqb c ch = false.
Proof.
  intros H Hch. destruct (Ascii.eqb_spec c ch) as [->|]; [congruence | done].
Qed.

Lemma int_16_digits c1 c2 d1 d2 :
  digit_value c1 = Some d1 → digit_value c2 = Some d2 →
  int_16 (String c1 (String c2 "")) = Some (16 * d1 + d2).
Proof.
  intros H1 H2. unfold int_16, skip_sign, skip_prefix. cbn.
  rewrite (digit_not_space _ _ H1).
  rewrite (digit_not_char c1 d1 "+"), (digit_not_char c1 d1 "-") by done.
  rewrite (digit_not_char c2 d2 "x"), (digit_not_char c2 d2 "X") by done.
  rewrite andb_false_r. cbn.
  rewrite (digit_not_char c1 d1 "_"), (digit_not_char c2 d2 "_") by done.
  rewrite H1, H2. cbn. f_equal. lia.
Qed.

(** A colour written [#RRGGBB] converts, each channel within [0, 255]. *)
Lemma parse_channels_well_formed c0 c1 c2 c3 c4 c5 d0 d1 d2 d3 d4 d5 :
  digit_value c0 = Some d0 → digit_value c1 = Some d1 →
  digit_value c2 = Some d2 → digit_value c3 = Some d3 →
  digit_value c4 = Some d4 → digit_value c5 = Some d5 →
  let rest := String c0 (String c1 (String c2 (String c3
                (String c4 (String c5 ""))))) in
  lstrip "#" (String "#" rest) = rest
  ∧ parse_channels rest
    = Some (16 * d0 + d1, 16 * d2 + d3, 16 * d4 + d5)
  ∧ 0 ≤ 16 * d0 + d1 ≤ 255 ∧ 0 ≤ 16 * d2 + d3 ≤ 255
  ∧ 0 ≤ 16 * d4 + d5 ≤ 255.
Proof.
  intros H0 H1 H2 H3 H4 H5 rest. split; [| split].
  - cbn. by rewrite (digit_not_char c0 d0 "#").
  - unfold parse_channels, slice, rest. cbn.
    rewrite (int_16_digits _ _ _ _ H0 H1), (int_16_digits _ _ _ _ H2 H3),
      (int_16_digits _ _ _ _ H4 H5). done.
  - apply digit_value_ord in H0 as [? _], H1 as [? _], H2 as [? _],
      H3 as [? _], H4 as [? _], H5 as [? _]. lia.
Qed.

(** ** Prompt compiler: properties *)

Example build_coffee_shop :
  build_prompt_from_structure coffee_shop
  = join (LF +:+ LF)
      [ "Scene: A cozy coffee shop";
        join LF [ "Subject 1: A black cat, positioned on the chair, sleeping";
                  "Subject 3: reading" ];
        "Style: Cinematic";
        "Color palette: #000080 (blue/navy), #F5F5DC (white/cream)";
        "Composition: Rule of thirds";
        "Camera angle: Eye level | Lens: 50mm";
        "Text elements: Text reading " +:+ DQUOTE +:+ "COFFEE" +:+ DQUOTE
          +:+ " in black/dark color" ].
Proof. vm_compute. reflexivity. Qed.

(** *** The sections, one by one *)

Lemma append_labelled_section label field sections :
  append_labelled label field sections
  = sections ++ option_list (labelled_section label field).
Proof.
  unfold append_labelled, labelled_section.
  destruct field as [value|]; [destruct (truthy_str value) |];
    by rewrite ?app_nil_r.
Qed.

Lemma omap_id_cons {A} (o : option A) (l : list (option A)) :
  omap id (o :: l) = option_list o ++ omap id l.
Proof. by destruct o. Qed.

Lemma truthy_list_true {A} (l : list A) : truthy_list l = true ↔ l ≠ [].
Proof. by destruct l. Qed.

Lemma truthy_dict_lookup (d : gmap string string) key :
  is_Some (d !! key) → truthy_dict d = true.
Proof.
  intros [v Hv]. unfold truthy_dict.
  destruct (Nat.eqb_spec (size d) 0) as [E|]; [| done].
  apply map_size_empty_inv in E. subst d. by rewrite lookup_empty in Hv.
Qed.

Lemma append_key_truthy d key f parts :
  truthy_list (append_key d key f parts) = true
  ↔ truthy_list parts = true ∨ is_Some (d !! key).
Proof.
  unfold append_key. destruct (d !! key) as [v|].
  - split; [eauto | intros _; by destruct parts].
  - split; [by left | intros [?|[? ?]]; done].
Qed.

Lemma append_key_empty key f parts : append_key ∅ key f parts = parts.
Proof. unfold append_key. by rewrite lookup_empty. Qed.

Lemma subject_parts_truthy subject :
  truthy_list (subject_parts subject) = true ↔ has_key subject_keys subject.
Proof.
  unfold subject_parts, has_key, subject_keys.
  rewrite !append_key_truthy, !Exists_cons, Exists_nil. cbn. intuition discriminate.
Qed.

Lemma camera_parts_truthy cam :
  truthy_list (camera_parts cam) = true ↔ has_key camera_keys cam.
Proof.
  unfold camera_parts, has_key, camera_keys.
  rewrite !append_key_truthy, !Exists_cons, Exists_nil. cbn. intuition discriminate.
Qed.

Lemma text_desc_truthy text :
  truthy_list (text_desc text) = true ↔ has_key text_keys text.
Proof.
  unfold text_desc, has_key, text_keys.
  rewrite !append_key_truthy, !Exists_cons, Exists_nil. cbn. intuition discriminate.
Qed.

Lemma truthy_list_snoc {A} (l : list A) x : truthy_list (l ++ [x]) = true.
Proof. by destruct l. Qed.

(** The loops keep what was accumulated and add a line for each entry
    that renders. *)
Lemma subjects_loop_truthy i l acc :
  truthy_list (subjects_loop i l acc) = true
  ↔ truthy_list acc = true ∨ Exists (has_key subject_keys) l.
Proof.
  revert i acc. induction l as [|subject l IH]; intros i acc; cbn.
  - rewrite Exists_nil. intuition discriminate.
  - rewrite IH, Exists_cons, <- subject_parts_truthy.
    destruct (truthy_list (subject_parts subject));
      rewrite ?truthy_list_snoc; intuition discriminate.
Qed.

Lemma text_loop_truthy l acc :
  truthy_list (text_loop l acc) = true
  ↔ truthy_list acc = true ∨ Exists (has_key text_keys) l.
Proof.
  revert acc. induction l as [|text l IH]; intros acc; cbn.
  - rewrite Exists_nil. intuition discriminate.
  - rewrite IH, Exists_cons, <- text_desc_truthy.
    destruct (truthy_list (text_desc text));
      rewrite ?truthy_list_snoc; intuition discriminate.
Qed.

(** *** Each block appends its section, if any *)

Lemma append_subjects_section sp sections :
  append_subjects (subjects sp) sections
  = sections ++ option_list (subjects_section sp).
Proof.
  unfold append_subjects, subjects_section, guarded_section.
  destruct (subjects sp) as [[|subject l]|]; cbn [mbind option_bind];
    [by rewrite app_nil_r | | by rewrite app_nil_r].
  cbn [truthy_list].
  by destruct (truthy_list (subjects_loop 1 (subject :: l) []));
    rewrite ?app_nil_r.
Qed.

Lemma append_color_palette_section sp sections :
  append_color_palette (color_palette sp) sections
  = sections ++ option_list (color_palette_section sp).
Proof.
  unfold append_color_palette, color_palette_section, guarded_section.
  by destruct (color_palette sp) as [[|c l]|]; cbn; rewrite ?app_nil_r.
Qed.

Lemma append_camera_section sp sections :
  append_camera (camera sp) sections
  = sections ++ option_list (camera_section sp).
Proof.
  unfold append_camera, camera_section, guarded_section.
  destruct (camera sp) as [cam|]; cbn [mbind option_bind];
    [| by rewrite app_nil_r].
  destruct (truthy_list (camera_parts cam)) eqn:E.
  - apply camera_parts_truthy, Exists_exists in E as (key & _ & Hkey).
    by rewrite (truthy_dict_lookup _ _ Hkey).
  - by destruct (truthy_dict cam); rewrite app_nil_r.
Qed.

Lemma append_text_elements_section sp sections :
  append_text_elements (text_elements sp) sections
  = sections ++ option_list (text_elements_section sp).
Proof.
  unfold append_text_elements, text_elements_section, guarded_section.
  destruct (text_elements sp) as [[|text l]|]; cbn [mbind option_bind];
    [by rewrite app_nil_r | | by rewrite app_nil_r].
  cbn [truthy_list].
  by destruct (truthy_list (text_loop (text :: l) []));
    rewrite ?app_nil_r.
Qed.

(** The compiled prompt is the present sections, in the fixed order,
    separated by blank lines. *)
Lemma build_prompt_sections_eq sp :
  build_prompt_from_structure sp
  = join (LF +:+ LF) (omap id (sections_in_order sp)).
Proof.
  unfold build_prompt_from_structure, sections_in_order.
  rewrite !append_labelled_section, append_subjects_section,
    append_color_palette_section, append_camera_section,
    append_text_elements_section.
  rewrite !omap_id_cons. cbn [omap list_omap].
  by rewrite app_nil_r, app_nil_l, <- !app_assoc.
Qed.

(** *** When a section is present *)

Lemma labelled_section_present label field :
  is_Some (labelled_section label field) ↔ nonempty_str field.
Proof.
  unfold labelled_section, nonempty_str.
  destruct field as [[|c s]|]; cbn.
  - split; [by intros [? [=]] | by intros (? & [= <-] & ?)].
  - split; intros _; by eexists.
  - split; [by intros [? [=]] | by intros (? & [=] & ?)].
Qed.

Lemma guarded_section_present rendered text :
  is_Some (guarded_section rendered text) ↔ truthy_list rendered = true.
Proof.
  unfold guarded_section. destruct (truthy_list rendered); split;
    first [done | by intros [? [=]] | by eexists].
Qed.

Lemma subjects_section_present sp :
  is_Some (subjects_section sp) ↔ entry_renders subject_keys (subjects sp).
Proof.
  unfold subjects_section, entry_renders.
  destruct (subjects sp) as [l|]; cbn [mbind option_bind].
  - rewrite guarded_section_present, subjects_loop_truthy. cbn. split.
    + intros [[=]|H]. by exists l.
    + intros (? & [= <-] & H). by right.
  - split; [by intros [? [=]] | by intros (? & [=] & ?)].
Qed.

Lemma color_palette_section_present sp :
  is_Some (color_palette_section sp) ↔ nonempty_list (color_palette sp).
Proof.
  unfold color_palette_section, nonempty_list.
  destruct (color_palette sp) as [l|]; cbn [mbind option_bind].
  - rewrite guarded_section_present, truthy_list_true. split.
    + intros H. by exists l.
    + by intros (? & [= <-] & H).
  - split; [by intros [? [=]] | by intros (? & [=] & ?)].
Qed.

Lemma camera_section_present sp :
  is_Some (camera_section sp) ↔ dict_renders camera_keys (camera sp).
Proof.
  unfold camera_section, dict_renders.
  destruct (camera sp) as [cam|]; cbn [mbind option_bind].
  - rewrite guarded_section_present, camera_parts_truthy. split.
    + intros H. by exists cam.
    + by intros (? & [= <-] & H).
  - split; [by intros [? [=]] | by intros (? & [=] & ?)].
Qed.

Lemma text_elements_section_present sp :
  is_Some (text_elements_section sp)
  ↔ entry_renders text_keys (text_elements sp).
Proof.
  unfold text_elements_section, entry_renders.
  destruct (text_elements sp) as [l|]; cbn [mbind option_bind].
  - rewrite guarded_section_present, text_loop_truthy. cbn. split.
    + intros [[=]|H]. by exists l.
    + intros (? & [= <-] & H). by right.
  - split; [by intros [? [=]] | by intros (? & [=] & ?)].
Qed.

(** C3. The compiled prompt is the sequence of the sections that are
    present, in the order scene, subjects, style, colour palette, lighting,
    mood, background, composition, camera, text elements, separated by
    blank lines. A plain section is present exactly when its field is a
    non-empty string, the palette when its list is non-empty, the camera
    when it has one of its three keys, the subjects and the text elements
    when one of their entries has one of its keys. *)
Theorem build_prompt_sections sp :
  build_prompt_from_structure sp
  = join (LF +:+ LF) (omap id (sections_in_order sp))
  ∧ Forall2 (λ section source, is_Some section ↔ source)
      (sections_in_order sp) (section_sources sp).
Proof.
  split; [apply build_prompt_sections_eq |].
  unfold sections_in_order, section_sources.
  repeat first
    [ apply Forall2_nil_2
    | apply Forall2_cons_2 ];
    auto using labelled_section_present, subjects_section_present,
      color_palette_section_present, camera_section_present,
      text_elements_section_present.
Qed.

(** A subjects field that is not empty does not always give a section:
    with one subject that has no key, nothing is compiled. *)
Lemma build_prompt_blank_subject :
  nonempty_list (subjects blank_subject_prompt)
  ∧ subjects_section blank_subject_prompt = None
  ∧ build_prompt_from_structure blank_subject_prompt = "".
Proof.
  split; [by eexists | split; vm_compute; reflexivity].
Qed.

(** *** The empty prompt *)

Lemma labelled_section_absent label field :
  ¬ nonempty_str field → labelled_section label field = None.
Proof.
  intros H. destruct (labelled_section label field) eqn:E; [| done].
  destruct H. apply (labelled_section_present label). by rewrite E.
Qed.

Lemma list_field_absent {A} (field : option (list A)) :
  ¬ nonempty_list field → field = None ∨ field = Some [].
Proof.
  intros H. destruct field as [[|x l]|]; [by right | | by left].
  destruct H. by eexists.
Qed.

Lemma dict_field_absent (field : option (gmap string string)) :
  ¬ nonempty_dict field → field = None ∨ field = Some ∅.
Proof.
  intros H. destruct field as [d|]; [| by left].
  destruct (decide (d = ∅)) as [->|Hd]; [by right |].
  destruct H. by eexists.
Qed.

(** C7. When every field is missing or empty, the compiled prompt is the
    empty string. *)
Theorem build_prompt_all_absent sp :
  all_absent_or_empty sp → build_prompt_from_structure sp = "".
Proof.
  intros (Hscene & Hsubjects & Hstyle & Hpalette & Hlighting & Hmood
          & Hbackground & Hcomposition & Hcamera & Htexts).
  rewrite build_prompt_sections_eq. unfold sections_in_order.
  rewrite !labelled_section_absent by done.
  assert (subjects_section sp = None) as ->.
  { unfold subjects_section.
    by destruct (list_field_absent _ Hsubjects) as [-> | ->]. }
  assert (color_palette_section sp = None) as ->.
  { unfold color_palette_section.
    by destruct (list_field_absent _ Hpalette) as [-> | ->]. }
  assert (camera_section sp = None) as ->.
  { unfold camera_section.
    destruct (dict_field_absent _ Hcamera) as [-> | ->]; [done |].
    cbn [mbind option_bind]. unfold camera_parts.
    by rewrite !append_key_empty. }
  assert (text_elements_section sp = None) as ->.
  { unfold text_elements_section.
    by destruct (list_field_absent _ Htexts) as [-> | ->]. }
  reflexivity.
Qed.

Lemma build_prompt_all_absent_witness :
  all_absent_or_empty hollow_prompt
  ∧ build_prompt_from_structure hollow_prompt = "".
Proof.
  assert (all_absent_or_empty hollow_prompt) as H.
  { unfold all_absent_or_empty, nonempty_str, nonempty_list, nonempty_dict.
    cbn. repeat split; intros (x & [= <-] & Hx); by apply Hx. }
  split; [exact H | exact (build_prompt_all_absent hollow_prompt H)].
Defined.

Example build_empty_prompt : build_prompt_from_structure empty_prompt = "".
Proof. reflexivity. Qed.

(** ** Dimension validator: properties *)

(** Case analysis on every [<?] test of the goal. *)
Ltac case_bounds :=
  repeat match goal with
  | |- context [?x <? ?y] => destruct (Z.ltb_spec x y)
  end.

(** *** The rounding helper *)

Lemma round_half_even_exact n d :
  0 < d → n mod d = 0 → round_half_even n d = n / d.
Proof.
  intros Hd Hr. unfold round_half_even. rewrite Hr.
  destruct (Z.ltb_spec (2 * 0) d); [done | lia].
Qed.

(** The quotient and remainder of [n] by 16 decide the rounding. *)
Lemma round_half_even_16 n :
  round_half_even n 16 =
    if n mod 16 <? 8 then n / 16
    else if 8 <? n mod 16 then n / 16 + 1
    else if Z.even (n / 16) then n / 16 else n / 16 + 1.
Proof.
  unfold round_half_even.
  pose proof (Z.mod_pos_bound n 16 eq_refl).
  repeat case_match; lia.
Qed.

Lemma round_53_small a : a < 2 ^ 53 → round_53 a = a.
Proof.
  intros Ha. unfold round_53.
  by destruct (Z.ltb_spec a (2 ^ 53)); [| lia].
Qed.

Lemma pow2_53_1028 : 2 ^ 53 < 2 ^ 1028.
Proof. by apply Z.pow_lt_mono_r. Qed.

(** Below [2 ^ 53] the float quotient is exact, and the function is
    round-half-even on [value / 16]. *)
Lemma round_to_multiple_of_16_exact value :
  Z.abs value < 2 ^ 53 →
  round_to_multiple_of_16 value = Ok (round_half_even value 16 * 16).
Proof.
  intros Hv. unfold round_to_multiple_of_16, truediv_16.
  rewrite round_53_small by lia.
  replace (Z.sgn value * Z.abs value) with value by lia.
  pose proof pow2_53_1028.
  destruct (Z.leb_spec (2 ^ 1028) (Z.abs value)); [lia | done].
Qed.

(** Whatever it rounds, the result is a multiple of 16. *)
Lemma round_to_multiple_of_16_aligned value r :
  round_to_multiple_of_16 value = Ok r → r mod 16 = 0.
Proof.
  unfold round_to_multiple_of_16. destruct (truediv_16 value); [| done].
  intros [= <-]. by apply Z.mod_mul.
Qed.

Example round_24 : round_to_multiple_of_16 24 = Ok 32.
Proof. reflexivity. Qed.

Example round_40 : round_to_multiple_of_16 40 = Ok 32.
Proof. reflexivity. Qed.

Example round_minus_24 : round_to_multiple_of_16 (-24) = Ok (-32).
Proof. reflexivity. Qed.

Example round_overflow :
  round_to_multiple_of_16 (2 ^ 1030 + 1) = Raise OverflowError.
Proof. vm_compute. reflexivity. Qed.

Lemma even_cases q :
  (Z.even q = true ∧ q mod 2 = 0) ∨ (Z.even q = false ∧ q mod 2 = 1).
Proof.
  rewrite Zeven_mod. destruct (Z.eqb_spec (q mod 2) 0); [by left |].
  right. split; [done |]. pose proof (Z.mod_pos_bound q 2 eq_refl). lia.
Qed.

(** Rounding a tie: the even neighbour among the multiples of 16. *)
Lemma round_half_even_16_tie n :
  n mod 16 = 8 →
  (round_half_even n 16 * 16) mod 32 = 0
  ∧ Z.abs (round_half_even n 16 * 16 - n) = 8.
Proof.
  intros Hn. rewrite round_half_even_16, Hn. cbn.
  destruct (even_cases (n / 16)) as [[-> He]|[-> He]];
    Z.div_mod_to_equations; lia.
Qed.

Lemma log2_range a :
  2 ^ 53 ≤ a < 2 ^ 58 →
  Z.log2 a = 53 ∨ Z.log2 a = 54 ∨ Z.log2 a = 55 ∨ Z.log2 a = 56 ∨ Z.log2 a = 57.
Proof.
  intros [Hlo Hhi].
  assert (0 < a) as Hpos by lia.
  apply Z.log2_le_pow2 in Hlo; [| done].
  apply Z.log2_lt_pow2 in Hhi; [| done]. lia.
Qed.

Lemma round_53_tie a :
  0 ≤ a < 2 ^ 58 → a mod 16 = 8 →
  round_53 a = a
  ∨ (round_53 a mod 32 = 0 ∧ Z.abs (round_53 a - a) = 8).
Proof.
  intros [H0 Hhi] Hm. unfold round_53.
  destruct (Z.ltb_spec a (2 ^ 53)) as [|Hlo]; [by left |].
  destruct (log2_range a) as [E|[E|[E|[E|E]]]]; [done | rewrite E ..].
  - left. change (2 ^ (53 - 52)) with 2. rewrite round_half_even_exact; Z.div_mod_to_equations; lia.
  - left. change (2 ^ (54 - 52)) with 4. rewrite round_half_even_exact; Z.div_mod_to_equations; lia.
  - left. change (2 ^ (55 - 52)) with 8. rewrite round_half_even_exact; Z.div_mod_to_equations; lia.
  - right. change (2 ^ (56 - 52)) with 16. by apply round_half_even_16_tie.
  - right. change (2 ^ (57 - 52)) with 32. unfold round_half_even.
    repeat case_match; Z.div_mod_to_equations; lia.
Qed.

Lemma pow2_58_1028 : 2 ^ 58 + 8 < 2 ^ 1028.
Proof.
  assert (2 ^ 59 < 2 ^ 1028) by by apply Z.pow_lt_mono_r.
  assert (2 ^ 58 + 8 < 2 ^ 59) by done. lia.
Qed.

(** A value half-way between two multiples of 16 goes to the even one
    (the multiple of 32 at distance 8), as long as its magnitude is below
    [2 ^ 58]. *)
Lemma round_to_multiple_of_16_tie value :
  value mod 16 = 8 → Z.abs value < 2 ^ 58 →
  ∃ r, round_to_multiple_of_16 value = Ok r
       ∧ r mod 32 = 0 ∧ Z.abs (r - value) = 8.
Proof.
  intros Hm Hv.
  assert (Z.abs value mod 16 = 8) as Ha.
  { destruct (Z.abs_spec value) as [[_ ->]|[_ ->]]; [done |].
    Z.div_mod_to_equations; lia. }
  pose proof pow2_58_1028 as Hbig.
  unfold round_to_multiple_of_16, truediv_16.
  destruct (round_53_tie (Z.abs value)) as [E|[E32 E8]]; [lia | done | |].
  - rewrite E. replace (Z.sgn value * Z.abs value) with value by lia.
    destruct (Z.leb_spec (2 ^ 1028) (Z.abs value)); [lia |].
    eexists; split; [done |]. by apply round_half_even_16_tie.
  - set (m := round_53 (Z.abs value)) in *.
    destruct (Z.leb_spec (2 ^ 1028) (Z.abs (Z.sgn value * m))); [lia |].
    eexists; split; [done |]. cbn.
    assert ((Z.sgn value * m) mod 16 = 0) as E16
      by (Z.div_mod_to_equations; nia).
    rewrite round_half_even_exact by done.
    split; Z.div_mod_to_equations; nia.
Qed.

Lemma round_to_multiple_of_16_tie_witness :
  ∃ r, round_to_multiple_of_16 40 = Ok r ∧ r mod 32 = 0 ∧ Z.abs (r - 40) = 8.
Proof. apply round_to_multiple_of_16_tie; [reflexivity | reflexivity]. Defined.

(** C8. The tie at [2 ^ 58 + 24] is lost: the value is 8 modulo 16 and
    the function returns [2 ^ 58], which is 24 away from it, although the
    even multiple of 16 nearest to it, [2 ^ 58 + 32], is 8 away. The float
    quotient [value / 16] has been rounded to 53 bits before [round] sees
    it, so the result is not the nearest multiple of 16. *)
Theorem round_to_multiple_of_16_tie_lost :
  let value := 2 ^ 58 + 24 in
  value mod 16 = 8
  ∧ round_to_multiple_of_16 value = Ok (2 ^ 58)
  ∧ Z.abs (2 ^ 58 - value) = 24
  ∧ (2 ^ 58 + 32) mod 32 = 0 ∧ Z.abs (2 ^ 58 + 32 - value) = 8.
Proof. vm_compute. by repeat split. Qed.

(** So the rule of the ties does not hold for every value. *)
Lemma round_to_multiple_of_16_tie_unbounded_fails :
  ¬ (∀ value, value mod 16 = 8 →
       ∃ r, round_to_multiple_of_16 value = Ok r
            ∧ r mod 32 = 0 ∧ Z.abs (r - value) = 8).
Proof.
  intros H. destruct (H (2 ^ 58 + 24)) as (r & Hr & _ & Hd); [done |].
  vm_compute in Hr. injection Hr as <-. vm_compute in Hd. discriminate.
Qed.


(** *** The validator *)

(** The adjusted dimensions are clamped and aligned on every return, also
    when errors were collected. *)
Lemma validate_dimensions_clamped_aligned width height aw ah errors warnings :
  validate_dimensions width height = Ok (aw, ah, errors, warnings) →
  (MIN_DIMENSION ≤ aw ∧ aw mod 16 = 0) ∧ (MIN_DIMENSION ≤ ah ∧ ah mod 16 = 0).
Proof.
  unfold validate_dimensions, MIN_DIMENSION.
  destruct (Z.eqb_spec (width mod 16) 0) as [Hw|Hw];
    destruct (Z.eqb_spec (height mod 16) 0) as [Hh|Hh]; cbn -[Z.modulo].
  all: try (destruct (round_to_multiple_of_16 width) as [rw|] eqn:Erw;
            [apply round_to_multiple_of_16_aligned in Erw | done]).
  all: try (destruct (round_to_multiple_of_16 height) as [rh|] eqn:Erh;
            [apply round_to_multiple_of_16_aligned in Erh | done]).
  all: cbn -[Z.modulo]; case_bounds; cbn -[Z.modulo]; intros [= <- <- _ _];
    repeat split; first [lia | done].
Qed.

(** C5. Dimensions that are at least 64, aligned on 16 and within four
    million pixels come back unchanged, with no error and no warning. *)
Theorem validate_dimensions_valid_unchanged width height :
  64 ≤ width → 64 ≤ height → width * height ≤ 4000000 →
  width mod 16 = 0 → height mod 16 = 0 →
  validate_dimensions width height = Ok (width, height, [], []).
Proof.
  intros Hw Hh Hp Hwm Hhm.
  unfold validate_dimensions, MIN_DIMENSION, MAX_MEGAPIXELS.
  rewrite Hwm, Hhm. cbn.
  destruct (Z.ltb_spec width 64); [lia |].
  destruct (Z.ltb_spec height 64); [lia |].
  destruct (Z.ltb_spec 4000000 (width * height)); [lia | done].
Qed.

Lemma validate_dimensions_valid_unchanged_witness :
  validate_dimensions 1024 1024 = Ok (1024, 1024, [], []).
Proof. apply validate_dimensions_valid_unchanged; [lia | lia | lia | done | done]. Defined.

(** C6. 1920 x 1081: the height is rounded to 1088, with one warning (the
    height adjustment) and no error. *)
Theorem validate_dimensions_1920_1081 :
  validate_dimensions 1920 1081
  = Ok (1920, 1088, [], [HeightAdjusted 1081 1088]).
Proof. vm_compute. reflexivity. Qed.

(** C1. The pixel limit is checked on the requested dimensions only: 1001 x
    3984 passes with no error, the width is rounded up to 1008 and the
    adjusted product exceeds four million. *)
Theorem validate_dimensions_adjusted_exceeds :
  validate_dimensions 1001 3984
  = Ok (1008, 3984, [], [WidthAdjusted 1001 1008])
  ∧ 1001 * 3984 ≤ MAX_MEGAPIXELS ∧ MAX_MEGAPIXELS < 1008 * 3984.
Proof. vm_compute. repeat split; discriminate. Qed.

(** ** API client: properties *)

Example b64encode_Man : b64encode bytes_Man = "TWFu".
Proof. reflexivity. Qed.

Example b64encode_Ma : b64encode [Byte.x4d; Byte.x61] = "TWE=".
Proof. reflexivity. Qed.

Example b64encode_M : b64encode [Byte.x4d] = "TQ==".
Proof. reflexivity. Qed.

Example suffix_examples :
  suffix {| parents := []; name := "a.PNG" |} = ".PNG"
  ∧ suffix {| parents := []; name := ".png" |} = ""
  ∧ suffix {| parents := []; name := "a." |} = ""
  ∧ suffix {| parents := []; name := "a.b.c" |} = ".c"
  ∧ suffix {| parents := ["a"; "b.c"]; name := "d" |} = ""
  ∧ suffix {| parents := []; name := "..png" |} = ".png".
Proof. repeat split; reflexivity. Qed.

Example lower_PNG : lower ".PNG" = ".png".
Proof. reflexivity. Qed.

Example poll_ready_at_third :
  poll_for_result ready_at_third
  = ([Request 0; Sleep 2; Request 1; Sleep 2; Request 2], Ok ready_result).
Proof. vm_compute. reflexivity. Qed.

Example poll_error_first :
  poll_for_result (λ _, failed) = ([Request 0], Raise (SystemExit 1)).
Proof. vm_compute. reflexivity. Qed.

(** *** The MIME type *)

Lemma mime_types_unknown extension :
  extension ∉ known_extensions → mime_types !! extension = None.
Proof.
  unfold known_extensions, mime_types. intros H.
  rewrite !not_elem_of_cons in H. destruct H as (? & ? & ? & ? & ? & _).
  by rewrite !lookup_insert_ne, lookup_empty.
Qed.

(** C10. For a file that can be read, the data URL carries the MIME type
    of the lower-cased extension when it is one of the five known ones,
    and image/jpeg for every other extension. *)
Theorem encode_image_mime_type files image_path content :
  files image_path = Some content →
  let extension := lower (suffix image_path) in
  let url mime_type :=
    Ok ("data:" +:+ mime_type +:+ ";base64," +:+ b64encode content) in
  (extension ∉ known_extensions →
     encode_image_to_base64 files image_path = url "image/jpeg")
  ∧ (extension = ".jpg" →
     encode_image_to_base64 files image_path = url "image/jpeg")
  ∧ (extension = ".jpeg" →
     encode_image_to_base64 files image_path = url "image/jpeg")
  ∧ (extension = ".png" →
     encode_image_to_base64 files image_path = url "image/png")
  ∧ (extension = ".webp" →
     encode_image_to_base64 files image_path = url "image/webp")
  ∧ (extension = ".gif" →
     encode_image_to_base64 files image_path = url "image/gif").
Proof.
  intros Hfile extension url. unfold encode_image_to_base64. rewrite Hfile.
  fold extension. repeat split.
  - intros H. by rewrite (mime_types_unknown _ H).
  - by intros ->.
  - by intros ->.
  - by intros ->.
  - by intros ->.
  - by intros ->.
Qed.

Lemma encode_image_mime_type_witness :
  encode_image_to_base64 (λ _, Some bytes_Man)
    {| parents := []; name := "input.PNG" |}
  = Ok "data:image/png;base64,TWFu".
Proof.
  destruct (encode_image_mime_type (λ _, Some bytes_Man)
              {| parents := []; name := "input.PNG" |} bytes_Man eq_refl)
    as (_ & _ & _ & Hpng & _).
  apply Hpng. reflexivity.
Defined.

Example encode_image_unknown_extension :
  encode_image_to_base64 (λ _, Some bytes_Man)
    {| parents := []; name := "input.bmp" |}
  = Ok "data:image/jpeg;base64,TWFu".
Proof. reflexivity. Qed.

Example encode_image_missing :
  encode_image_to_base64 (λ _, None) {| parents := []; name := "input.png" |}
  = Raise FileNotFoundError.
Proof. reflexivity. Qed.

(** *** The polling loop *)

Section polling.

Variable responses : nat → Response.

(** Every response is of exactly one kind. *)
Lemma response_kind r : is_ready r ∨ is_error r ∨ is_transient r.
Proof.
  unfold is_transient, is_ready, is_error.
  destruct (decide (status_code r = 200)) as [Hc|Hc];
    [| right; right; split; intros [? _]; done].
  destruct (decide (status (json r) = Some "Ready")) as [Hr|Hr];
    [by left |].
  destruct (decide (status (json r) = Some "Error")) as [He|He];
    [by right; left |].
  right; right. split; intros [_ ?]; done.
Qed.

Lemma ready_not_error r : is_ready r → ¬ is_error r.
Proof. intros [_ Hr] [_ He]. congruence. Qed.

Lemma poll_attempts_ready attempt attempts :
  is_ready (responses attempt) →
  poll_attempts responses (attempt :: attempts)
  = ([Request attempt], Ok (json (responses attempt))).
Proof.
  intros [Hc Hs]. cbn. rewrite Hc, Hs. reflexivity.
Qed.

Lemma poll_attempts_error attempt attempts :
  is_error (responses attempt) →
  poll_attempts responses (attempt :: attempts)
  = ([Request attempt], Raise (SystemExit 1)).
Proof.
  intros [Hc Hs]. cbn. rewrite Hc, Hs. reflexivity.
Qed.

(** A response that is neither Ready nor Error uses up its attempt: the
    loop pauses and goes on with the remaining ones. *)
Lemma poll_attempts_transient attempt attempts :
  is_transient (responses attempt) →
  poll_attempts responses (attempt :: attempts)
  = (Request attempt :: Sleep POLL_INTERVAL
       :: (poll_attempts responses attempts).1,
     (poll_attempts responses attempts).2).
Proof.
  intros [Hr He]. unfold is_ready, is_error in Hr, He. cbn.
  destruct (poll_attempts responses attempts) as [log outcome].
  destruct (Z.eqb_spec (status_code (responses attempt)) 200); [| done].
  cbn. rewrite bool_decide_eq_false_2 by tauto.
  rewrite bool_decide_eq_false_2 by tauto.
  by case_bool_decide.
Qed.

(** The loop over [seq a n] stops at the first response that is Ready or
    Error, or uses up the [n] attempts. *)
Lemma poll_attempts_seq a n :
  (∃ i, (i < n)%nat ∧ is_ready (responses (a + i))
        ∧ (∀ j, (j < i)%nat → is_transient (responses (a + j)))
        ∧ poll_attempts responses (seq a n)
          = (retried a i ++ [Request (a + i)%nat],
             Ok (json (responses (a + i)))))
  ∨ (∃ i, (i < n)%nat ∧ is_error (responses (a + i))
          ∧ (∀ j, (j < i)%nat → is_transient (responses (a + j)))
          ∧ poll_attempts responses (seq a n)
            = (retried a i ++ [Request (a + i)%nat], Raise (SystemExit 1)))
  ∨ ((∀ j, (j < n)%nat → is_transient (responses (a + j)))
     ∧ poll_attempts responses (seq a n)
       = (retried a n, Raise (SystemExit 1))).
Proof.
  revert a. induction n as [|n IH]; intros a.
  { right; right. split; [lia | done]. }
  cbn [seq].
  destruct (response_kind (responses a)) as [Hr|[He|Ht]].
  - left. exists 0%nat. rewrite Nat.add_0_r.
    split; [lia |]. split; [done |]. split; [lia |].
    by apply poll_attempts_ready.
  - right; left. exists 0%nat. rewrite Nat.add_0_r.
    split; [lia |]. split; [done |]. split; [lia |].
    by apply poll_attempts_error.
  - rewrite (poll_attempts_transient _ _ Ht).
    assert (∀ i, (∀ j, (j < i)%nat → is_transient (responses (S a + j))) →
                 ∀ j, (j < S i)%nat → is_transient (responses (a + j)))
      as Hshift.
    { intros i H [|j] Hj; [by rewrite Nat.add_0_r |].
      rewrite Nat.add_succ_r. apply H. lia. }
    destruct (IH (S a)) as [(i & Hi & Hr & Hb & ->)
                           |[(i & Hi & He & Hb & ->)|[Hb ->]]].
    + left. exists (S i). rewrite Nat.add_succ_r.
      split; [lia |]. split; [done |]. split; [by apply Hshift | done].
    + right; left. exists (S i). rewrite Nat.add_succ_r.
      split; [lia |]. split; [done |]. split; [by apply Hshift | done].
    + right; right. split; [by apply Hshift | done].
Qed.

End polling.

Lemma is_transient_iff r :
  is_transient r
  ↔ status_code r ≠ 200
    ∨ (status (json r) ≠ Some "Ready" ∧ status (json r) ≠ Some "Error").
Proof.
  unfold is_transient, is_ready, is_error.
  destruct (decide (status_code r = 200)); tauto.
Qed.

(** C4. The polling returns a result exactly when a Ready response comes
    within the first 120 attempts and before any Error response; it then
    returns the object of the first Ready response, after one request per
    attempt and a pause after each earlier one. A non-200 response, or a
    status other than Ready and Error (Pending, Processing, Queued, any
    other string, or none), uses up its attempt and is followed by a pause
    and the next attempt. In every other case, an Error response first or
    120 attempts used up, the process exits with status 1. *)
Theorem poll_for_result_outcome (responses : nat → Response) :
  ((∃ result, (poll_for_result responses).2 = Ok result)
   ↔ ready_before_error responses MAX_POLL_ATTEMPTS)
  ∧ (∀ i, (i < MAX_POLL_ATTEMPTS)%nat → first_ready responses i →
       poll_for_result responses
       = (retried 0 i ++ [Request i], Ok (json (responses i))))
  ∧ (∀ attempt attempts,
       status_code (responses attempt) ≠ 200
       ∨ (status (json (responses attempt)) ≠ Some "Ready"
          ∧ status (json (responses attempt)) ≠ Some "Error") →
       poll_attempts responses (attempt :: attempts)
       = (Request attempt :: Sleep POLL_INTERVAL
            :: (poll_attempts responses attempts).1,
          (poll_attempts responses attempts).2))
  ∧ (¬ ready_before_error responses MAX_POLL_ATTEMPTS →
       (poll_for_result responses).2 = Raise (SystemExit 1)).
Proof.
  unfold poll_for_result, ready_before_error, first_ready.
  pose proof (poll_attempts_seq responses 0 MAX_POLL_ATTEMPTS) as Hcases.
  cbn [Nat.add] in Hcases.
  assert (∀ r, is_transient r → ¬ is_error r) as Hte by (by intros r [_ ?]).
  assert (∀ r, is_transient r → ¬ is_ready r) as Htr by (by intros r [? _]).
  split; [| split; [| split]].
  - destruct Hcases as [(i & Hi & Hr & Hb & ->)
                       |[(i & Hi & He & Hb & ->)|[Hb ->]]]; cbn [snd].
    + split; [intros _ | by eexists]. exists i. eauto.
    + split; [by intros [? [=]] |]. intros (k & Hk & Hr & Hne).
      destruct (Nat.lt_trichotomy i k) as [Hlt|[->|Hlt]].
      * destruct (Hne i Hlt He).
      * destruct (ready_not_error _ Hr He).
      * destruct (Htr _ (Hb k Hlt) Hr).
    + split; [by intros [? [=]] |]. intros (k & Hk & Hr & _).
      destruct (Htr _ (Hb k Hk) Hr).
  - intros k Hk [Hr Hbefore].
    destruct Hcases as [(i & Hi & Hr' & Hb & ->)
                       |[(i & Hi & He & Hb & ->)|[Hb ->]]].
    + destruct (Nat.lt_trichotomy i k) as [Hlt|[->|Hlt]]; [| done |].
      * destruct (Htr _ (Hbefore i Hlt) Hr').
      * destruct (Htr _ (Hb k Hlt) Hr).
    + destruct (Nat.lt_trichotomy i k) as [Hlt|[->|Hlt]].
      * destruct (Hte _ (Hbefore i Hlt) He).
      * destruct (ready_not_error _ Hr He).
      * destruct (Htr _ (Hb k Hlt) Hr).
    + destruct (Htr _ (Hb k Hk) Hr).
  - intros attempt attempts H. apply poll_attempts_transient.
    by apply is_transient_iff.
  - intros Hnone.
    destruct Hcases as [(i & Hi & Hr & Hb & ->)
                       |[(i & Hi & He & Hb & ->)|[Hb ->]]]; cbn [snd];
      [| done | done].
    destruct Hnone. exists i. eauto.
Qed.

Lemma poll_for_result_outcome_witness :
  poll_for_result ready_at_third
  = ([Request 0; Sleep 2; Request 1; Sleep 2; Request 2], Ok ready_result).
Proof.
  destruct (poll_for_result_outcome ready_at_third) as (_ & Hfirst & _).
  apply (Hfirst 2%nat).
  - unfold MAX_POLL_ATTEMPTS. lia.
  - split; [by split |].
    intros [|[|j]] Hj; [| | lia];
      (split; intros [_ Hs]; vm_compute in Hs; discriminate Hs).
Defined.

Example poll_never_ready :
  (poll_for_result (λ _, processing)).2 = Raise (SystemExit 1)
  ∧ length (poll_for_result (λ _, processing)).1 = 240%nat.
Proof. vm_compute. split; reflexivity. Qed.

Example poll_unavailable_then_error :
  poll_for_result (λ a, if Nat.eqb a 0 then unavailable else failed)
  = ([Request 0; Sleep 2; Request 1], Raise (SystemExit 1)).
Proof. vm_compute. reflexivity. Qed.

(** ** More on the colour namer *)

(** The function after a successful conversion, with [<?] for [>?]. *)
Lemma hex_to_color_name_parsed hex_color r g b :
  parse_channels (lstrip "#" hex_color) = Some (r, g, b) →
  hex_to_color_name hex_color
  = if (200 <? r) && (200 <? g) && (200 <? b) then "white/cream"
    else if (r <? 50) && (g <? 50) && (b <? 50) then "black/dark"
    else if (g <? r) && (b <? r) then
      if 200 <? r then "bright red/coral" else "red/burgundy"
    else if (r <? g) && (b <? g) then
      if 200 <? g then "bright green/lime" else "green/forest"
    else if (r <? b) && (g <? b) then
      if 200 <? b then "bright blue/sky" else "blue/navy"
    else if (180 <? r) && (150 <? g) && (b <? 100) then "golden/amber"
    else if (150 <? r) && (100 <? g) && (b <? 80) then "brown/tan"
    else if (200 <? r) && (150 <? g) && (150 <? b) then "pink/rose"
    else if (100 <? r) && (100 <? g) && (100 <? b) then "gray"
    else "(" +:+ lstrip "#" hex_color +:+ ")".
Proof.
  intros E. unfold hex_to_color_name. by rewrite E, !Z.gtb_ltb.
Qed.

(** X9. A colour that is neither near white nor near black and has a
    strictly greatest channel is named after that channel, bright when the
    channel is above 200. *)
Theorem dominant_channel_named hex_color r g b :
  parse_channels (lstrip "#" hex_color) = Some (r, g, b) →
  ¬ (200 < r ∧ 200 < g ∧ 200 < b) → ¬ (r < 50 ∧ g < 50 ∧ b < 50) →
  (g < r ∧ b < r →
   hex_to_color_name hex_color
   = if 200 <? r then "bright red/coral" else "red/burgundy")
  ∧ (r < g ∧ b < g →
     hex_to_color_name hex_color
     = if 200 <? g then "bright green/lime" else "green/forest")
  ∧ (r < b ∧ g < b →
     hex_to_color_name hex_color
     = if 200 <? b then "bright blue/sky" else "blue/navy").
Proof.
  intros E Hwhite Hblack. rewrite (hex_to_color_name_parsed _ _ _ _ E).
  assert ((200 <? r) && (200 <? g) && (200 <? b) = false) as -> by lia.
  assert ((r <? 50) && (g <? 50) && (b <? 50) = false) as -> by lia.
  split; [| split]; intros [H1 H2].
  - by assert ((g <? r) && (b <? r) = true) as -> by lia.
  - assert ((g <? r) && (b <? r) = false) as -> by lia.
    by assert ((r <? g) && (b <? g) = true) as -> by lia.
  - assert ((g <? r) && (b <? r) = false) as -> by lia.
    assert ((r <? g) && (b <? g) = false) as -> by lia.
    by assert ((r <? b) && (g <? b) = true) as -> by lia.
Qed.

Lemma dominant_channel_named_witness :
  hex_to_color_name "#8B4513" = "red/burgundy".
Proof.
  destruct (dominant_channel_named "#8B4513" 139 69 19) as (H & _).
  - reflexivity.
  - lia.
  - lia.
  - rewrite H by lia. reflexivity.
Defined.

(** X10. A grey, whose three channels have the same value, is white/cream
    above 200, black/dark below 50 and gray from 101 to 200; from 50 to 100
    it has no name and the digits come back in parentheses. *)
Theorem grey_named hex_color v :
  parse_channels (lstrip "#" hex_color) = Some (v, v, v) →
  hex_to_color_name hex_color
  = if 200 <? v then "white/cream"
    else if v <? 50 then "black/dark"
    else if 100 <? v then "gray"
    else "(" +:+ lstrip "#" hex_color +:+ ")".
Proof.
  intros E. rewrite (hex_to_color_name_parsed _ _ _ _ E).
  rewrite Z.ltb_irrefl. cbn [andb].
  case_bounds; cbn [andb]; first [done | lia].
Qed.

Lemma grey_named_witness : hex_to_color_name "#646464" = "(646464)".
Proof.
  rewrite (grey_named "#646464" 100); reflexivity.
Defined.

(** X11. A colour written [#] and six hexadecimal digits always gets a
    name: one of the twelve names, or the six digits in parentheses. *)
Theorem well_formed_named c0 c1 c2 c3 c4 c5 :
  is_hex_digit c0 = true → is_hex_digit c1 = true →
  is_hex_digit c2 = true → is_hex_digit c3 = true →
  is_hex_digit c4 = true → is_hex_digit c5 = true →
  let digits := String c0 (String c1 (String c2 (String c3
                  (String c4 (String c5 ""))))) in
  hex_to_color_name (String "#" digits) ∈ color_names
  ∨ hex_to_color_name (String "#" digits) = "(" +:+ digits +:+ ")".
Proof.
  intros H0 H1 H2 H3 H4 H5 digits. unfold is_hex_digit in *.
  apply bool_decide_eq_true_1 in H0 as [d0 H0], H1 as [d1 H1],
    H2 as [d2 H2], H3 as [d3 H3], H4 as [d4 H4], H5 as [d5 H5].
  destruct (parse_channels_well_formed _ _ _ _ _ _ _ _ _ _ _ _
              H0 H1 H2 H3 H4 H5) as (Hstrip & Hparse & _).
  fold digits in Hstrip, Hparse. rewrite <- Hstrip in Hparse.
  rewrite (hex_to_color_name_parsed _ _ _ _ Hparse), Hstrip.
  unfold color_names.
  repeat case_match; first [by right | left; set_solver].
Qed.

Lemma well_formed_named_witness :
  hex_to_color_name "#DEB887" ∈ color_names
  ∨ hex_to_color_name "#DEB887" = "(DEB887)".
Proof.
  apply (well_formed_named "D" "E" "B" "8" "8" "7"); reflexivity.
Defined.

(** ** More on the prompt compiler *)

Example validate_noisy_prompt :
  validate_structured_prompt noisy_prompt
  = [ "Invalid hex color format: navy (should be #RRGGBB)";
      "Text element 'This sentence is far...' is long - AI may struggle with lengthy text" ].
Proof. vm_compute. reflexivity. Qed.

Example validate_empty_prompt :
  validate_structured_prompt empty_prompt
  = [ "No 'scene' description provided - consider adding one for better results";
      "No 'subjects' defined - the image may lack a clear focal point" ].
Proof. vm_compute. reflexivity. Qed.

Example validate_quiet_prompt : validate_structured_prompt quiet_prompt = [].
Proof. vm_compute. reflexivity. Qed.

(** *** The validation *)

Lemma snoc_not_nil {A} (l : list A) x : l ++ [x] ≠ [].
Proof. by destruct l. Qed.

Lemma palette_warnings_nil colors warnings :
  palette_warnings colors warnings = []
  ↔ warnings = [] ∧ Forall color_format_ok colors.
Proof.
  revert warnings. induction colors as [|color colors IH]; intros warnings.
  { cbn. split; [by intros -> | by intros [-> _]]. }
  cbn [palette_warnings]. rewrite IH, Forall_cons. unfold color_format_ok.
  destruct (startswith "#" color);
    destruct (Nat.eqb_spec (String.length color) 7); cbn.
  - tauto.
  - split; [intros [H _]; by destruct (snoc_not_nil _ _ H) | tauto].
  - split; [intros [H _]; by destruct (snoc_not_nil _ _ H) |].
    by intros (_ & [[=] _] & _).
  - split; [intros [H _]; by destruct (snoc_not_nil _ _ H) |].
    by intros (_ & [[=] _] & _).
Qed.

Lemma text_warnings_nil texts warnings :
  text_warnings texts warnings = []
  ↔ warnings = [] ∧ Forall text_length_ok texts.
Proof.
  revert warnings. induction texts as [|text texts IH]; intros warnings.
  { cbn. split; [by intros -> | by intros [-> _]]. }
  cbn [text_warnings]. rewrite IH, Forall_cons. unfold text_length_ok.
  destruct (text !! "content") as [content|].
  - destruct (Nat.ltb_spec 50 (String.length content)) as [Hlong|Hshort].
    + split; [intros [H _]; by destruct (snoc_not_nil _ _ H) |].
      intros (_ & H & _). specialize (H content eq_refl). lia.
    + split; [| tauto]. intros [-> ?]. repeat split; [| done].
      by intros ? [= <-].
  - split; [| tauto]. intros [-> ?]. repeat split; done.
Qed.

(** X12. The validation stays silent exactly when the scene is a
    non-empty string, the subjects list is non-empty, every palette entry
    starts with [#] and has seven characters, and every text content has
    at most 50 characters. *)
Theorem validate_structured_prompt_silent_iff sp :
  validate_structured_prompt sp = []
  ↔ nonempty_str (scene sp) ∧ nonempty_list (subjects sp)
    ∧ (∀ colors, color_palette sp = Some colors →
                 Forall color_format_ok colors)
    ∧ (∀ texts, text_elements sp = Some texts →
                Forall text_length_ok texts).
Proof.
  unfold validate_structured_prompt, nonempty_str, nonempty_list.
  set (w0 := if negb (get_str (scene sp)) then _ else _).
  set (w1 := if negb (get_list (subjects sp)) then _ else _).
  set (w2 := match color_palette sp with Some _ => _ | None => _ end).
  assert (w0 = [] ↔ ∃ value, scene sp = Some value ∧ value ≠ "") as H0.
  { unfold w0. destruct (scene sp) as [[|c s]|]; cbn.
    - split; [done | by intros (? & [= <-] & ?)].
    - split; [intros _; by eexists | done].
    - split; [done | by intros (? & [=] & ?)]. }
  assert (w1 = [] ↔ w0 = [] ∧ ∃ l, subjects sp = Some l ∧ l ≠ []) as H1.
  { unfold w1. destruct (subjects sp) as [[|s l]|]; cbn.
    - split; [intros H; by destruct (snoc_not_nil _ _ H) |].
      by intros (_ & ? & [= <-] & ?).
    - split; [intros ->; split; [done | by eexists] | tauto].
    - split; [intros H; by destruct (snoc_not_nil _ _ H) |].
      by intros (_ & ? & [=] & ?). }
  assert (w2 = [] ↔ w1 = [] ∧ ∀ colors, color_palette sp = Some colors →
                                       Forall color_format_ok colors) as H2.
  { unfold w2. destruct (color_palette sp) as [[|c l]|].
    - cbn. split; [intros ->; split; [done |] | tauto].
      intros ? [= <-]. constructor.
    - cbn [truthy_list]. rewrite palette_warnings_nil.
      split; [intros [-> ?]; split; [done |]; by intros ? [= <-] |].
      intros [-> H]. split; [done |]. by apply H.
    - split; [intros ->; split; [done |]; by intros ? [=] | tauto]. }
  destruct (text_elements sp) as [[|t l]|].
  - cbn. rewrite H2, H1, H0. split; [| tauto].
    intros ((? & ?) & ?). do 3 (split; [done |]).
    intros ? [= <-]. constructor.
  - cbn [truthy_list]. rewrite text_warnings_nil, H2, H1, H0.
    split; [| intros (? & ? & ? & H); split; [tauto | by apply H]].
    intros (((? & ?) & ?) & ?). do 3 (split; [done |]).
    by intros ? [= <-].
  - rewrite H2, H1, H0. split; [| tauto].
    intros ((? & ?) & ?). do 3 (split; [done |]). by intros ? [=].
Qed.

Lemma validate_structured_prompt_nil_scene sp :
  validate_structured_prompt sp = [] → nonempty_str (scene sp).
Proof.
  unfold validate_structured_prompt, nonempty_str.
  set (w0 := if negb (get_str (scene sp)) then _ else _).
  set (w1 := if negb (get_list (subjects sp)) then _ else _).
  set (w2 := match color_palette sp with Some _ => _ | None => _ end).
  intros H.
  assert (w2 = []) as H2.
  { destruct (text_elements sp) as [texts|]; [| done].
    destruct (truthy_list texts); [| done].
    by apply text_warnings_nil in H as [? _]. }
  assert (w1 = []) as H1.
  { unfold w2 in H2. destruct (color_palette sp) as [colors|]; [| done].
    destruct (truthy_list colors); [| done].
    by apply palette_warnings_nil in H2 as [? _]. }
  assert (w0 = []) as H0.
  { unfold w1 in H1. destruct (negb (get_list (subjects sp))); [| done].
    by destruct (snoc_not_nil _ _ H1). }
  unfold w0 in H0. destruct (scene sp) as [[|c s]|]; [done | | done].
  by eexists.
Qed.

(** *** The compiled text *)

Lemma join_cons_not_empty sep x l : x ≠ "" → join sep (x :: l) ≠ "".
Proof. destruct x; [done |]. by destruct l. Qed.

Lemma join_empty_iff sep l :
  Forall (λ x, x ≠ "") l → join sep l = "" ↔ l = [].
Proof.
  intros H. destruct H as [|x l Hx _]; [done |].
  split; [| done]. intros E. by destruct (join_cons_not_empty sep x l).
Qed.

Lemma append_key_not_empty d key label parts :
  label ≠ "" →
  Forall (λ x, x ≠ "") parts →
  Forall (λ x, x ≠ "") (append_key d key (λ v, label +:+ v) parts).
Proof.
  intros Hl Hp. unfold append_key. destruct (d !! key) as [v|]; [| done].
  apply Forall_app. split; [done |]. constructor; [| done].
  by destruct label.
Qed.

Lemma camera_parts_not_empty cam : Forall (λ x, x ≠ "") (camera_parts cam).
Proof.
  unfold camera_parts. by repeat apply append_key_not_empty.
Qed.

Lemma subjects_loop_not_empty i l acc :
  Forall (λ x, x ≠ "") acc → Forall (λ x, x ≠ "") (subjects_loop i l acc).
Proof.
  revert i acc. induction l as [|subject l IH]; intros i acc Hacc; [done |].
  cbn [subjects_loop]. apply IH.
  destruct (truthy_list (subject_parts subject)); [| done].
  apply Forall_app. split; [done |]. by constructor.
Qed.

(** A section that is present is not the empty string. *)
Lemma sections_not_empty sp :
  Forall (λ x, x ≠ "") (omap id (sections_in_order sp)).
Proof.
  assert (∀ label field text,
            label ≠ "" → labelled_section label field = Some text →
            text ≠ "") as Hlabelled.
  { intros label field text Hl. unfold labelled_section.
    destruct field as [value|]; [| done].
    destruct (truthy_str value); [| done]. intros [= <-]. by destruct label. }
  assert (∀ rendered sep text,
            Forall (λ x, x ≠ "") rendered →
            guarded_section rendered (join sep rendered) = Some text →
            text ≠ "") as Hguarded.
  { intros rendered sep text Hr. unfold guarded_section.
    destruct Hr as [|x l Hx _]; [done |]. cbn [truthy_list].
    intros [= <-]. by apply join_cons_not_empty. }
  unfold sections_in_order. rewrite !omap_id_cons. cbn [omap list_omap].
  rewrite !Forall_app. repeat split.
  all: try match goal with
       | |- Forall _ (option_list (labelled_section ?l ?f)) =>
           destruct (labelled_section l f) as [text|] eqn:E;
           [constructor; [| done]; by apply (Hlabelled l f) | done]
       end.
  - unfold subjects_section. destruct (subjects sp) as [l|]; [| done].
    cbn [mbind option_bind].
    destruct (guarded_section _ _) as [text|] eqn:E; [| done].
    constructor; [| done]. apply Hguarded in E; [done |].
    by apply subjects_loop_not_empty.
  - unfold color_palette_section, guarded_section.
    destruct (color_palette sp) as [colors|]; [| done].
    cbn [mbind option_bind]. destruct (truthy_list colors); [| done].
    by constructor.
  - unfold camera_section. destruct (camera sp) as [cam|]; [| done].
    cbn [mbind option_bind].
    destruct (guarded_section _ _) as [text|] eqn:E; [| done].
    constructor; [| done]. apply Hguarded in E; [done |].
    apply camera_parts_not_empty.
  - unfold text_elements_section, guarded_section.
    destruct (text_elements sp) as [texts|]; [| done].
    cbn [mbind option_bind]. destruct (truthy_list (text_loop texts []));
      [| done].
    by constructor.
  - constructor.
Qed.

Lemma omap_id_nil_iff {A} (l : list (option A)) :
  omap id l = [] ↔ Forall (λ o, o = None) l.
Proof.
  induction l as [|[x|] l IH]; cbn.
  - split; [constructor | done].
  - split; [done | by intros [[=] _]%Forall_cons].
  - rewrite IH, Forall_cons. tauto.
Qed.

Lemma Forall2_absent_iff (l : list (option string)) (sources : list Prop) :
  Forall2 (λ section source, is_Some section ↔ source) l sources →
  Forall (λ o, o = None) l ↔ Forall (λ source, ¬ source) sources.
Proof.
  induction 1 as [|o P l Ps HoP _ IH]; [split; constructor |].
  rewrite !Forall_cons, IH, <- HoP, eq_None_not_Some. tauto.
Qed.

Lemma sections_present sp :
  Forall2 (λ section source, is_Some section ↔ source)
    (sections_in_order sp) (section_sources sp).
Proof.
  unfold sections_in_order, section_sources.
  repeat first [apply Forall2_nil_2 | apply Forall2_cons_2];
    auto using labelled_section_present, subjects_section_present,
      color_palette_section_present, camera_section_present,
      text_elements_section_present.
Qed.

(** X13. The compiled prompt is the empty string only when no section
    renders: no plain field holds a non-empty string, the palette is
    missing or empty, the camera has none of its keys and no subject or
    text element has any of its keys. *)
Theorem build_prompt_empty_iff sp :
  build_prompt_from_structure sp = ""
  ↔ Forall (λ source, ¬ source) (section_sources sp).
Proof.
  rewrite build_prompt_sections_eq.
  rewrite (join_empty_iff _ _ (sections_not_empty sp)).
  rewrite omap_id_nil_iff. apply Forall2_absent_iff, sections_present.
Qed.

(** X14. A prompt that passes the validation without a warning never
    compiles to the empty string. *)
Theorem validated_prompt_not_empty sp :
  validate_structured_prompt sp = [] → build_prompt_from_structure sp ≠ "".
Proof.
  intros H%validate_structured_prompt_nil_scene.
  rewrite build_prompt_sections_eq.
  rewrite (join_empty_iff _ _ (sections_not_empty sp)), omap_id_nil_iff.
  unfold sections_in_order. intros [E _]%Forall_cons.
  apply (labelled_section_present "Scene: ") in H. rewrite E in H.
  by destruct H.
Qed.

Lemma validated_prompt_not_empty_witness :
  build_prompt_from_structure quiet_prompt ≠ "".
Proof. apply validated_prompt_not_empty. vm_compute. reflexivity. Defined.

(** *** The numbering of the subjects *)

Lemma subjects_loop_closed i l acc :
  subjects_loop i l acc
  = acc ++ omap id (imap (λ k, subject_line (i + k)) l).
Proof.
  revert i acc. induction l as [|subject l IH]; intros i acc.
  { cbn. by rewrite app_nil_r. }
  cbn [subjects_loop imap]. rewrite IH, omap_id_cons, Nat.add_0_r.
  rewrite (imap_ext (λ k, subject_line (S i + k))
             ((λ k, subject_line (i + k)) ∘ S) l)
    by (intros k x _; cbn; by rewrite Nat.add_succ_r).
  unfold subject_line at 2.
  destruct (truthy_list (subject_parts subject)); cbn [option_list].
  - by rewrite <- app_assoc.
  - done.
Qed.

(** X15. The lines of the subjects section follow the list: one line for
    each subject that has a key, in the order of the list, numbered by the
    position of the subject in the list, from 1, so that a subject
    without keys leaves a gap in the numbers. *)
Theorem subjects_numbered_by_position (l : list (gmap string string)) :
  subjects_loop 1 l [] = omap id (imap (λ k, subject_line (S k)) l)
  ∧ ∀ k subject line,
      l !! k = Some subject → subject_line (S k) subject = Some line →
      line ∈ subjects_loop 1 l [].
Proof.
  assert (subjects_loop 1 l [] = omap id (imap (λ k, subject_line (S k)) l))
    as E by (by rewrite subjects_loop_closed).
  split; [done |]. intros k subject line Hk Hline. rewrite E.
  apply list_elem_of_omap. exists (Some line). split; [| done].
  rewrite <- Hline. apply list_elem_of_lookup. exists k.
  by rewrite list_lookup_imap, Hk.
Qed.

Example subjects_gap :
  subjects_loop 1 [ ∅; {[ "description" := "A red boat" ]} ] []
  = ["Subject 2: A red boat"].
Proof. vm_compute. reflexivity. Qed.

(** ** More on the dimension validator *)

(** *** Rounding *)

Lemma round_half_even_bounds n d :
  0 < d → n - d ≤ round_half_even n d * d ≤ n + d.
Proof.
  intros Hd. unfold round_half_even.
  pose proof (Z.div_mod n d ltac:(lia)) as Hdm.
  pose proof (Z.mod_pos_bound n d Hd) as Hb.
  repeat case_match; nia.
Qed.

Lemma round_53_bounds a : 0 ≤ a → 0 ≤ round_53 a ≤ 2 * a.
Proof.
  intros Ha. unfold round_53.
  destruct (Z.ltb_spec a (2 ^ 53)) as [|Hlo]; [lia |].
  assert (0 < a) as Hpos by lia.
  assert (53 ≤ Z.log2 a) as Hlog by (by apply Z.log2_le_pow2).
  pose proof (Z.log2_spec a Hpos) as [Hle _].
  assert (0 < 2 ^ (Z.log2 a - 52)) as Hd by (apply Z.pow_pos_nonneg; lia).
  assert (2 ^ (Z.log2 a - 52) ≤ 2 ^ Z.log2 a) as Hmono
    by (apply Z.pow_le_mono_r; lia).
  pose proof (round_half_even_bounds a _ Hd). lia.
Qed.

(** The float division overflows only from [2 ^ 1027] on. *)
Lemma truediv_16_returns value :
  Z.abs value < 2 ^ 1027 → ∃ x, truediv_16 value = Ok x.
Proof.
  intros Hv. unfold truediv_16.
  pose proof (round_53_bounds (Z.abs value) (Z.abs_nonneg _)) as Hb.
  assert (2 ^ 1028 = 2 * 2 ^ 1027) as E by done.
  destruct (Z.leb_spec (2 ^ 1028)
              (Z.abs (Z.sgn value * round_53 (Z.abs value)))) as [Hbig|];
    [| by eexists].
  destruct value as [|p|p]; cbn [Z.sgn] in Hbig; lia.
Qed.

Lemma round_to_multiple_of_16_returns value :
  Z.abs value < 2 ^ 1027 → ∃ r, round_to_multiple_of_16 value = Ok r.
Proof.
  intros Hv. unfold round_to_multiple_of_16.
  destruct (truediv_16_returns value Hv) as [x ->]. by eexists.
Qed.

(** X1. Below [2 ^ 53] the function returns the nearest multiple of 16: a
    multiple of 16 at most 8 away, and the value itself when it is one. *)
Theorem round_to_multiple_of_16_nearest value :
  Z.abs value < 2 ^ 53 →
  ∃ r, round_to_multiple_of_16 value = Ok r
       ∧ r mod 16 = 0 ∧ Z.abs (r - value) ≤ 8
       ∧ (value mod 16 = 0 → r = value).
Proof.
  intros Hv. rewrite round_to_multiple_of_16_exact by done.
  eexists; split; [done |]. rewrite round_half_even_16.
  repeat case_match; Z.div_mod_to_equations; lia.
Qed.

Lemma round_to_multiple_of_16_nearest_witness :
  ∃ r, round_to_multiple_of_16 1081 = Ok r
       ∧ r mod 16 = 0 ∧ Z.abs (r - 1081) ≤ 8
       ∧ (1081 mod 16 = 0 → r = 1081).
Proof. apply round_to_multiple_of_16_nearest. reflexivity. Defined.

(** *** The validator, taken apart *)

(** What a return of [validate_dimensions] is made of: the errors of the
    three checks, the rounded dimensions [rw] and [rh], their clamping, and
    the warnings in the order they are appended. *)
Lemma validate_dimensions_inv width height aw ah errors warnings :
  validate_dimensions width height = Ok (aw, ah, errors, warnings) →
  errors
  = (if width <? 64 then [WidthBelowMinimum width] else [])
    ++ (if height <? 64 then [HeightBelowMinimum height] else [])
    ++ (if 4000000 <? width * height
        then [TotalPixelsExceedMaximum (width * height)] else [])
  ∧ ∃ rw rh,
      (if width mod 16 =? 0 then rw = width
       else round_to_multiple_of_16 width = Ok rw)
      ∧ (if height mod 16 =? 0 then rh = height
         else round_to_multiple_of_16 height = Ok rh)
      ∧ aw = Z.max rw 64 ∧ ah = Z.max rh 64
      ∧ warnings
        = (if width mod 16 =? 0 then [] else [WidthAdjusted width rw])
          ++ (if height mod 16 =? 0 then [] else [HeightAdjusted height rh])
          ++ (if rw <? 64 then [WidthSetToMinimum] else [])
          ++ (if rh <? 64 then [HeightSetToMinimum] else []).
Proof.
  unfold validate_dimensions, MIN_DIMENSION, MAX_MEGAPIXELS.
  destruct (width mod 16 =? 0) eqn:Ew; destruct (height mod 16 =? 0) eqn:Eh;
    cbn -[Z.modulo Z.mul].
  all: try (destruct (round_to_multiple_of_16 width) as [rw|] eqn:Erw;
            [| done]).
  all: try (destruct (round_to_multiple_of_16 height) as [rh|] eqn:Erh;
            [| done]).
  all: cbn -[Z.modulo Z.mul].
  all: intros H; split;
    [ revert H; case_bounds; cbn -[Z.modulo Z.mul];
      by intros [= _ _ <- _]
    | ].
  - exists width, height. revert H. case_bounds; cbn -[Z.modulo Z.mul];
      intros [= <- <- _ <-]; repeat split; lia.
  - exists width, rh. revert H. case_bounds; cbn -[Z.modulo Z.mul];
      intros [= <- <- _ <-]; repeat split; lia.
  - exists rw, height. revert H. case_bounds; cbn -[Z.modulo Z.mul];
      intros [= <- <- _ <-]; repeat split; lia.
  - exists rw, rh. revert H. case_bounds; cbn -[Z.modulo Z.mul];
      intros [= <- <- _ <-]; repeat split; lia.
Qed.

(** The converse: from the rounded dimensions to the return. *)
Lemma validate_dimensions_intro width height rw rh :
  (if width mod 16 =? 0 then rw = width
   else round_to_multiple_of_16 width = Ok rw) →
  (if height mod 16 =? 0 then rh = height
   else round_to_multiple_of_16 height = Ok rh) →
  validate_dimensions width height
  = Ok (Z.max rw 64, Z.max rh 64,
        (if width <? 64 then [WidthBelowMinimum width] else [])
        ++ (if height <? 64 then [HeightBelowMinimum height] else [])
        ++ (if 4000000 <? width * height
            then [TotalPixelsExceedMaximum (width * height)] else []),
        (if width mod 16 =? 0 then [] else [WidthAdjusted width rw])
        ++ (if height mod 16 =? 0 then [] else [HeightAdjusted height rh])
        ++ (if rw <? 64 then [WidthSetToMinimum] else [])
        ++ (if rh <? 64 then [HeightSetToMinimum] else [])).
Proof.
  unfold validate_dimensions, MIN_DIMENSION, MAX_MEGAPIXELS.
  destruct (width mod 16 =? 0); destruct (height mod 16 =? 0);
    intros Hw Hh; rewrite ?Hw, ?Hh; subst; cbn -[Z.modulo Z.mul Z.max].
  all: case_bounds; cbn -[Z.modulo Z.mul Z.max];
    f_equal; repeat f_equal; lia.
Qed.

(** X2. The error list is empty exactly when both requested dimensions
    are at least 64 and their product is at most 4,000,000. *)
Theorem validate_dimensions_no_error_iff width height aw ah errors warnings :
  validate_dimensions width height = Ok (aw, ah, errors, warnings) →
  errors = [] ↔ 64 ≤ width ∧ 64 ≤ height ∧ width * height ≤ 4000000.
Proof.
  intros H. apply validate_dimensions_inv in H as [-> _].
  case_bounds; cbn; split; first [done | lia | by intros [? [? ?]]; lia].
Qed.

Lemma validate_dimensions_no_error_iff_witness :
  ([] : list message) = [] ↔ 64 ≤ 1920 ∧ 64 ≤ 1081 ∧ 1920 * 1081 ≤ 4000000.
Proof.
  apply (validate_dimensions_no_error_iff 1920 1081 1920 1088 []
           [HeightAdjusted 1081 1088]).
  vm_compute. reflexivity.
Defined.

(** In this model the rounding is the only step of the validator that can
    raise. The source divides once more, [total_pixels / 1_000_000] in the
    text of the third error message, which is not part of the model: the
    theorems below that state a return or an exit bound the dimensions by
    [2 ^ 500], where none of the float divisions of the source overflows. *)
Lemma validate_dimensions_returns width height :
  width mod 16 = 0 ∨ Z.abs width < 2 ^ 1027 →
  height mod 16 = 0 ∨ Z.abs height < 2 ^ 1027 →
  ∃ aw ah errors warnings,
    validate_dimensions width height = Ok (aw, ah, errors, warnings).
Proof.
  intros Hw Hh.
  assert (∃ rw, if width mod 16 =? 0 then rw = width
                else round_to_multiple_of_16 width = Ok rw) as [rw Erw].
  { destruct (Z.eqb_spec (width mod 16) 0); [by eexists |].
    apply round_to_multiple_of_16_returns. tauto. }
  assert (∃ rh, if height mod 16 =? 0 then rh = height
                else round_to_multiple_of_16 height = Ok rh) as [rh Erh].
  { destruct (Z.eqb_spec (height mod 16) 0); [by eexists |].
    apply round_to_multiple_of_16_returns. tauto. }
  rewrite (validate_dimensions_intro _ _ _ _ Erw Erh). by repeat eexists.
Qed.

Lemma pow_500_1027 value : Z.abs value < 2 ^ 500 → Z.abs value < 2 ^ 1027.
Proof.
  intros H. assert (2 ^ 500 < 2 ^ 1027) by (by apply Z.pow_lt_mono_r). lia.
Qed.

(** X3. For dimensions below [2 ^ 500] in magnitude the validator returns,
    and the adjusted dimensions are a fixed point: validated again, they
    come back unchanged and without any warning. *)
Theorem validate_dimensions_idempotent width height :
  Z.abs width < 2 ^ 500 → Z.abs height < 2 ^ 500 →
  ∃ aw ah errors warnings errors',
    validate_dimensions width height = Ok (aw, ah, errors, warnings)
    ∧ validate_dimensions aw ah = Ok (aw, ah, errors', []).
Proof.
  intros Hwb%pow_500_1027 Hhb%pow_500_1027.
  destruct (validate_dimensions_returns width height)
    as (aw & ah & errors & warnings & H); [by right | by right |].
  exists aw, ah, errors, warnings. rewrite H.
  apply validate_dimensions_clamped_aligned in H as [[Hw Hwm] [Hh Hhm]].
  unfold MIN_DIMENSION in Hw, Hh.
  rewrite (validate_dimensions_intro aw ah aw ah)
    by (by rewrite ?Hwm, ?Hhm).
  rewrite Hwm, Hhm. cbn [Z.eqb app].
  destruct (Z.ltb_spec aw 64); [lia |].
  destruct (Z.ltb_spec ah 64); [lia |].
  replace (Z.max aw 64) with aw by lia.
  replace (Z.max ah 64) with ah by lia.
  by eexists.
Qed.

Lemma validate_dimensions_idempotent_witness :
  ∃ aw ah errors warnings errors',
    validate_dimensions 1001 30 = Ok (aw, ah, errors, warnings)
    ∧ validate_dimensions aw ah = Ok (aw, ah, errors', []).
Proof.
  apply validate_dimensions_idempotent; reflexivity.
Defined.

(** X4. A warning is issued exactly when a dimension is changed: the
    warning list is empty if and only if both adjusted dimensions equal
    the requested ones. *)
Theorem validate_dimensions_warns_iff_changed
    width height aw ah errors warnings :
  validate_dimensions width height = Ok (aw, ah, errors, warnings) →
  warnings = [] ↔ aw = width ∧ ah = height.
Proof.
  intros H.
  pose proof (validate_dimensions_clamped_aligned _ _ _ _ _ _ H)
    as [[_ Hwm] [_ Hhm]].
  apply validate_dimensions_inv in H
    as (_ & rw & rh & Hrw & Hrh & -> & -> & ->).
  destruct (Z.eqb_spec (width mod 16) 0) as [Ew|Ew];
    destruct (Z.eqb_spec (height mod 16) 0) as [Eh|Eh]; subst;
    cbn [app].
  - case_bounds; cbn; split; first [done | lia | intros [? ?]; lia].
  - split; [done |]. intros [_ E]. rewrite E in Hhm. done.
  - split; [done |]. intros [E _]. rewrite E in Hwm. done.
  - split; [done |]. intros [E _]. rewrite E in Hwm. done.
Qed.

Lemma validate_dimensions_warns_iff_changed_witness :
  [HeightAdjusted 1081 1088] = [] ↔ 1920 = 1920 ∧ 1088 = 1081.
Proof.
  apply (validate_dimensions_warns_iff_changed 1920 1081 1920 1088 []).
  vm_compute. reflexivity.
Defined.

Lemma round_to_multiple_of_16_in_range value r :
  64 ≤ value < 2 ^ 53 →
  round_to_multiple_of_16 value = Ok r →
  64 ≤ r ∧ Z.abs (r - value) ≤ 8.
Proof.
  intros Hv. rewrite round_to_multiple_of_16_exact by lia.
  intros [= <-]. rewrite round_half_even_16.
  repeat case_match; Z.div_mod_to_equations; lia.
Qed.

(** Without errors: the requested dimensions are in range, and each
    rounded dimension is in range and within 8 of the requested one. *)
Lemma validate_dimensions_no_error_inv width height aw ah warnings :
  validate_dimensions width height = Ok (aw, ah, [], warnings) →
  (64 ≤ width ∧ 64 ≤ height ∧ width * height ≤ 4000000)
  ∧ (64 ≤ aw ∧ Z.abs (aw - width) ≤ 8)
  ∧ (64 ≤ ah ∧ Z.abs (ah - height) ≤ 8)
  ∧ warnings
    = (if width mod 16 =? 0 then [] else [WidthAdjusted width aw])
      ++ (if height mod 16 =? 0 then [] else [HeightAdjusted height ah]).
Proof.
  intros H. apply validate_dimensions_inv in H
    as (He & rw & rh & Hrw & Hrh & -> & -> & ->).
  assert (64 ≤ width ∧ 64 ≤ height ∧ width * height ≤ 4000000)
    as (Hw & Hh & Hp).
  { revert He. case_bounds; cbn; first [done | lia]. }
  assert (width < 2 ^ 53 ∧ height < 2 ^ 53) as [Hwb Hhb].
  { assert (4000000 < 2 ^ 53) by done. split; nia. }
  assert (64 ≤ rw ∧ Z.abs (rw - width) ≤ 8) as [Hrw64 Hrw8].
  { destruct (width mod 16 =? 0); [subst; lia |].
    by apply round_to_multiple_of_16_in_range. }
  assert (64 ≤ rh ∧ Z.abs (rh - height) ≤ 8) as [Hrh64 Hrh8].
  { destruct (height mod 16 =? 0); [subst; lia |].
    by apply round_to_multiple_of_16_in_range. }
  destruct (Z.ltb_spec rw 64); [lia |].
  destruct (Z.ltb_spec rh 64); [lia |].
  rewrite !app_nil_r, !Z.max_l by lia. done.
Qed.

(** X5. When no error is reported, each adjusted dimension is within 8 of
    the requested one, and the minimum is never applied. *)
Theorem validate_dimensions_adjusts_by_at_most_8 width height aw ah warnings :
  validate_dimensions width height = Ok (aw, ah, [], warnings) →
  Z.abs (aw - width) ≤ 8 ∧ Z.abs (ah - height) ≤ 8
  ∧ (WidthSetToMinimum ∉ warnings) ∧ (HeightSetToMinimum ∉ warnings).
Proof.
  intros H. apply validate_dimensions_no_error_inv in H
    as (_ & [_ Hw] & [_ Hh] & ->).
  split; [done |]. split; [done |].
  split; repeat case_match; rewrite ?elem_of_app, ?elem_of_cons, ?elem_of_nil;
    intuition discriminate.
Qed.

Lemma validate_dimensions_adjusts_by_at_most_8_witness :
  Z.abs (1008 - 1001) ≤ 8 ∧ Z.abs (3984 - 3984) ≤ 8
  ∧ (WidthSetToMinimum ∉ [WidthAdjusted 1001 1008])
  ∧ (HeightSetToMinimum ∉ [WidthAdjusted 1001 1008]).
Proof.
  apply (validate_dimensions_adjusts_by_at_most_8 1001 3984).
  vm_compute. reflexivity.
Defined.

(** *** [get_dimensions] *)

Lemma get_dimensions_requested cfg :
  get_dimensions cfg
  = match requested_dimensions cfg with
    | None => Raise (SystemExit 1)
    | Some (width, height) =>
        '(adj_width, adj_height, errors, warnings) ←
          validate_dimensions width height;
        if truthy_list errors then Raise (SystemExit 1)
        else Ok (adj_width, adj_height)
    end.
Proof.
  unfold get_dimensions, requested_dimensions.
  destruct (ASPECT_RATIO cfg) as [aspect_ratio|]; [| done].
  by destruct (ASPECT_RATIO_PRESETS !! aspect_ratio) as [[? ?]|].
Qed.

(** X6. What [get_dimensions] returns is always usable up to the rounding:
    the requested dimensions were at least 64 with a product of at most
    4,000,000, and the returned ones are at least 64, multiples of 16 and
    within 8 of them. *)
Theorem get_dimensions_postcondition cfg aw ah :
  get_dimensions cfg = Ok (aw, ah) →
  ∃ width height,
    requested_dimensions cfg = Some (width, height)
    ∧ 64 ≤ width ∧ 64 ≤ height ∧ width * height ≤ 4000000
    ∧ 64 ≤ aw ∧ 64 ≤ ah ∧ aw mod 16 = 0 ∧ ah mod 16 = 0
    ∧ Z.abs (aw - width) ≤ 8 ∧ Z.abs (ah - height) ≤ 8.
Proof.
  rewrite get_dimensions_requested.
  destruct (requested_dimensions cfg) as [[width height]|]; [| done].
  destruct (validate_dimensions width height)
    as [[[[aw' ah'] errors] warnings]|] eqn:E; [| done].
  cbn. destruct errors; [| done]. cbn. intros [= -> ->].
  pose proof (validate_dimensions_clamped_aligned _ _ _ _ _ _ E)
    as [[_ Hwm] [_ Hhm]].
  apply validate_dimensions_no_error_inv in E
    as ((? & ? & ?) & [? ?] & [? ?] & _).
  exists width, height. repeat split; done.
Qed.

Lemma get_dimensions_postcondition_witness :
  ∃ width height,
    requested_dimensions (shipped_config empty_prompt) = Some (width, height)
    ∧ 64 ≤ width ∧ 64 ≤ height ∧ width * height ≤ 4000000
    ∧ 64 ≤ 1536 ∧ 64 ≤ 1152 ∧ 1536 mod 16 = 0 ∧ 1152 mod 16 = 0
    ∧ Z.abs (1536 - width) ≤ 8 ∧ Z.abs (1152 - height) ≤ 8.
Proof.
  apply get_dimensions_postcondition. vm_compute. reflexivity.
Defined.

(** X7. An unknown preset name exits with status 1, and so does a request
    below 64 or above 4,000,000 pixels, whatever the rounding would give
    (for dimensions below [2 ^ 500] in magnitude). *)
Theorem get_dimensions_exits cfg :
  (requested_dimensions cfg = None →
     get_dimensions cfg = Raise (SystemExit 1))
  ∧ (∀ width height,
       requested_dimensions cfg = Some (width, height) →
       Z.abs width < 2 ^ 500 → Z.abs height < 2 ^ 500 →
       width < 64 ∨ height < 64 ∨ 4000000 < width * height →
       get_dimensions cfg = Raise (SystemExit 1)).
Proof.
  rewrite get_dimensions_requested. split; [by intros -> |].
  intros width height -> Hw%pow_500_1027 Hh%pow_500_1027 Hbad.
  destruct (validate_dimensions_returns width height)
    as (aw & ah & errors & warnings & E); [tauto | tauto |].
  rewrite E. cbn.
  apply validate_dimensions_inv in E as [-> _].
  revert Hbad. case_bounds; cbn; first [done | lia].
Qed.

(** X8. Of the thirteen presets, [1:1_max] (2048 x 2048, more than
    4,000,000 pixels) makes [get_dimensions] exit with status 1; every
    other one is accepted, within the pixel limit after adjustment, and
    comes back unchanged except [16:9] and [9:16], whose 1080 becomes
    1088. *)
Theorem get_dimensions_presets cfg name preset :
  ASPECT_RATIO cfg = Some name →
  ASPECT_RATIO_PRESETS !! name = Some preset →
  (name = "1:1_max" → get_dimensions cfg = Raise (SystemExit 1))
  ∧ (name ≠ "1:1_max" →
     ∃ aw ah, get_dimensions cfg = Ok (aw, ah) ∧ aw * ah ≤ 4000000
              ∧ (name ≠ "16:9" → name ≠ "9:16" → (aw, ah) = preset))
  ∧ (name = "16:9" → get_dimensions cfg = Ok (1920, 1088))
  ∧ (name = "9:16" → get_dimensions cfg = Ok (1088, 1920)).
Proof.
  intros HA Hp. unfold ASPECT_RATIO_PRESETS in Hp.
  apply elem_of_list_to_map_2 in Hp.
  unfold get_dimensions. rewrite HA. clear HA.
  repeat (apply elem_of_cons in Hp as [[= -> ->]|Hp]);
    [.. | by apply elem_of_nil in Hp].
  all: match goal with
       | |- context [?e = Raise (SystemExit 1)] =>
           let v := eval vm_compute in e in
           assert (e = v) as -> by (vm_compute; reflexivity)
       end.
  all: split; [first [by intros [=] | intros _; reflexivity] |].
  all: split; [| split; first [by intros [=] | intros _; reflexivity]].
  all: intros Hne; try (by destruct Hne).
  all: eexists _, _; split; [reflexivity |]; split; [lia |].
  all: intros H1 H2; try (by destruct H1); try (by destruct H2); reflexivity.
Qed.

Lemma get_dimensions_presets_witness :
  get_dimensions (shipped_config empty_prompt) = Ok (1536, 1152).
Proof.
  destruct (get_dimensions_presets (shipped_config empty_prompt) "4:3"
              (1536, 1152) eq_refl eq_refl) as (_ & H & _).
  destruct H as (aw & ah & -> & _ & E); [done |].
  by rewrite E.
Defined.

Example get_dimensions_custom :
  get_dimensions (with_aspect_ratio (shipped_config empty_prompt) None 1001 3984)
  = Ok (1008, 3984).
Proof. vm_compute. reflexivity. Qed.

Example get_dimensions_unknown_preset :
  get_dimensions
    (with_aspect_ratio (shipped_config empty_prompt) (Some "5:4") 0 0)
  = Raise (SystemExit 1).
Proof. vm_compute. reflexivity. Qed.

(** ** More on the API client *)

(** *** The budget of the polling loop *)

Lemma requests_sent_app log1 log2 :
  requests_sent (log1 ++ log2) = (requests_sent log1 + requests_sent log2)%nat.
Proof.
  induction log1 as [|[a|s] log1 IH]; cbn; [done | | done]. by rewrite IH.
Qed.

Lemma seconds_slept_app log1 log2 :
  seconds_slept (log1 ++ log2) = seconds_slept log1 + seconds_slept log2.
Proof.
  induction log1 as [|[a|s] log1 IH]; cbn; [done | done |]. rewrite IH. lia.
Qed.

Lemma retried_totals a i :
  requests_sent (retried a i) = i
  ∧ seconds_slept (retried a i) = POLL_INTERVAL * Z.of_nat i.
Proof.
  revert a. induction i as [|i IH]; intros a; [done |].
  cbn [retried requests_sent seconds_slept].
  destruct (IH (S a)) as [-> ->]. split; [done | lia].
Qed.

(** X16. The polling sends at most 120 requests and pauses at most 240
    seconds. When it returns a result its log is a request and a pause of
    2 seconds for each attempt that was retried, then the request that was
    answered: it has paused after each request but the last. When no
    response within the 120 attempts is Ready or Error the log is 120
    times a request and a pause, the last pause coming after the last
    request: 120 requests, 240 seconds, and the exit with status 1. *)
Theorem poll_for_result_budget (responses : nat → Response) :
  let log := (poll_for_result responses).1 in
  let outcome := (poll_for_result responses).2 in
  (requests_sent log ≤ MAX_POLL_ATTEMPTS)%nat
  ∧ seconds_slept log ≤ POLL_INTERVAL * Z.of_nat MAX_POLL_ATTEMPTS
  ∧ (∀ result, outcome = Ok result →
       ∃ i, (i < MAX_POLL_ATTEMPTS)%nat
            ∧ log = retried 0 i ++ [Request i]
            ∧ requests_sent log = S i
            ∧ seconds_slept log = POLL_INTERVAL * Z.of_nat i)
  ∧ ((∀ i, (i < MAX_POLL_ATTEMPTS)%nat → is_transient (responses i)) →
       log = retried 0 MAX_POLL_ATTEMPTS
       ∧ requests_sent log = MAX_POLL_ATTEMPTS
       ∧ seconds_slept log = POLL_INTERVAL * Z.of_nat MAX_POLL_ATTEMPTS
       ∧ outcome = Raise (SystemExit 1)).
Proof.
  unfold poll_for_result.
  pose proof (poll_attempts_seq responses 0 MAX_POLL_ATTEMPTS) as Hcases.
  cbn [Nat.add] in Hcases. cbn zeta.
  destruct Hcases as [(i & Hi & Hr & Hb & ->)
                     |[(i & Hi & He & Hb & ->)|[Hb ->]]]; cbn [fst snd].
  1,2: rewrite requests_sent_app, seconds_slept_app;
    destruct (retried_totals 0 i) as [-> ->]; cbn [requests_sent seconds_slept].
  - split; [lia |]. split; [unfold POLL_INTERVAL; lia |].
    split.
    + intros _ _. exists i. do 2 (split; [done |]). split; lia.
    + intros Hall. by destruct (Hall i Hi) as [? _].
  - split; [lia |]. split; [unfold POLL_INTERVAL; lia |].
    split; [by intros ? [=] |].
    intros Hall. by destruct (Hall i Hi) as [_ ?].
  - destruct (retried_totals 0 MAX_POLL_ATTEMPTS) as [-> ->].
    split; [lia |]. split; [lia |]. split; [by intros ? [=] | done].
Qed.

(** X17. What the polling returns is the object of one of the first 120
    responses, a response with code 200 and status Ready. *)
Theorem poll_for_result_returns_ready (responses : nat → Response) log result :
  poll_for_result responses = (log, Ok result) →
  status result = Some "Ready"
  ∧ ∃ i, (i < MAX_POLL_ATTEMPTS)%nat
         ∧ status_code (responses i) = 200 ∧ json (responses i) = result.
Proof.
  unfold poll_for_result.
  pose proof (poll_attempts_seq responses 0 MAX_POLL_ATTEMPTS) as Hcases.
  cbn [Nat.add] in Hcases.
  destruct Hcases as [(i & Hi & [Hc Hs] & _ & ->)
                     |[(i & _ & _ & _ & ->)|[_ ->]]]; [| done | done].
  intros [= _ <-]. split; [done |]. by exists i.
Qed.

Lemma poll_for_result_returns_ready_witness :
  status ready_result = Some "Ready"
  ∧ ∃ i, (i < MAX_POLL_ATTEMPTS)%nat
         ∧ status_code (ready_at_third i) = 200
         ∧ json (ready_at_third i) = ready_result.
Proof.
  apply (poll_for_result_returns_ready ready_at_third
           [Request 0; Sleep 2; Request 1; Sleep 2; Request 2]).
  vm_compute. reflexivity.
Defined.

Lemma poll_attempts_ext (r1 r2 : nat → Response) attempts :
  (∀ a, a ∈ attempts → r1 a = r2 a) →
  poll_attempts r1 attempts = poll_attempts r2 attempts.
Proof.
  induction attempts as [|a attempts IH]; intros H; [done |].
  cbn [poll_attempts]. rewrite (H a) by apply list_elem_of_here.
  rewrite IH; [done |]. intros a' Ha'. apply H. by apply list_elem_of_further.
Qed.

(** X18. Only the first 120 responses matter: two sequences of responses
    that agree on the attempts 0 to 119 give the same log and the same
    outcome. *)
Theorem poll_for_result_first_120 (r1 r2 : nat → Response) :
  (∀ i, (i < MAX_POLL_ATTEMPTS)%nat → r1 i = r2 i) →
  poll_for_result r1 = poll_for_result r2.
Proof.
  intros H. apply poll_attempts_ext. intros a Ha. apply H.
  apply elem_of_seq in Ha. lia.
Qed.

Lemma poll_for_result_first_120_witness :
  poll_for_result ready_at_third
  = poll_for_result (λ i, if Nat.ltb i 120 then ready_at_third i else failed).
Proof.
  apply poll_for_result_first_120. intros i Hi.
  destruct (Nat.ltb_spec i 120) as [|Hge]; [done |].
  unfold MAX_POLL_ATTEMPTS in Hi. lia.
Defined.

(** *** The data URL *)

Lemma mime_types_known extension mime_type :
  mime_types !! extension = Some mime_type → mime_type ∈ known_mime_types.
Proof.
  unfold mime_types, known_mime_types.
  rewrite !lookup_insert_Some, lookup_empty, !elem_of_cons.
  intuition (subst; auto; discriminate).
Qed.

(** X19. The only failure of [encode_image_to_base64] is the file that
    cannot be opened; otherwise the result is a data URL whose MIME type is
    one of image/jpeg, image/png, image/webp and image/gif, followed by the
    base64 text of the whole file. *)
Theorem encode_image_result files image_path :
  match files image_path with
  | None => encode_image_to_base64 files image_path = Raise FileNotFoundError
  | Some content =>
      ∃ mime_type,
        mime_type ∈ known_mime_types
        ∧ encode_image_to_base64 files image_path
          = Ok ("data:" +:+ mime_type +:+ ";base64," +:+ b64encode content)
  end.
Proof.
  unfold encode_image_to_base64.
  destruct (files image_path) as [content|]; [| done].
  destruct (mime_types !! lower (suffix image_path)) as [mime_type|] eqn:E.
  - exists mime_type. split; [by eapply mime_types_known | done].
  - exists "image/jpeg". split; [| done]. apply list_elem_of_here.
Qed.

(** ** Submission, download and the main function: properties *)

(** *** Runs *)

Lemma io_bind_ok {A B} log (a : A) (f : A → io B) :
  (log, Ok a) ≫= f = (log ++ (f a).1, (f a).2).
Proof. reflexivity. Qed.

Lemma io_bind_raise {A B} log e (f : A → io B) :
  ((log, Raise e) : io A) ≫= f = (log, Raise e).
Proof. reflexivity. Qed.

Lemma io_bind_pure_ok {A B} (a : A) (f : A → io B) :
  pure (Ok a) ≫= f = f a.
Proof. unfold pure. rewrite io_bind_ok. by destruct (f a). Qed.

Lemma io_bind_mret {A B} (a : A) (f : A → io B) : mret a ≫= f = f a.
Proof. apply io_bind_pure_ok. Qed.

Lemma io_bind_pure_raise {A B} e (f : A → io B) :
  pure (Raise e) ≫= f = ([], Raise e).
Proof. reflexivity. Qed.

Lemma io_bind_sys_exit {A B} code (f : A → io B) :
  sys_exit code ≫= f = ([], Raise (SystemExit code)).
Proof. reflexivity. Qed.

Example main_friendly :
  (main (shipped_config quiet_prompt) friendly_world).2 = Ok tt
  ∧ length (main (shipped_config quiet_prompt) friendly_world).1 = 9%nat.
Proof. vm_compute. split; reflexivity. Qed.

(** *** [submit_task] *)

Lemma submit_task_run cfg w api_key prompt width height input_image_path :
  submit_task cfg w api_key prompt width height input_image_path
  = match input_image_path with
    | Some path =>
        match encode_image_to_base64 (read_file w) path with
        | Ok input_image =>
            sent w api_key
              (<["input_image" := PyStr input_image]>
                 (base_payload cfg prompt width height))
        | Raise e => ([], Raise e)
        end
    | None => sent w api_key (base_payload cfg prompt width height)
    end.
Proof.
  unfold submit_task. fold (base_payload cfg prompt width height).
  destruct input_image_path as [path|]; [| by rewrite io_bind_mret].
  destruct (encode_image_to_base64 (read_file w) path) as [input_image|e].
  - by rewrite io_bind_pure_ok, io_bind_mret.
  - by rewrite io_bind_pure_raise.
Qed.

Lemma base_payload_lookup cfg prompt width height :
  let payload := base_payload cfg prompt width height in
  payload !! "prompt" = Some (PyStr prompt)
  ∧ payload !! "width" = Some (PyInt width)
  ∧ payload !! "height" = Some (PyInt height)
  ∧ payload !! "seed" = PyInt <$> SEED cfg
  ∧ payload !! "input_image" = None
  ∧ ∀ key, is_Some (payload !! key) → key ∈ payload_keys.
Proof.
  unfold base_payload, payload_keys.
  destruct (SEED cfg) as [seed|]; cbn zeta.
  all: repeat split; try (by simplify_map_eq).
  all: intros key [v Hv]; rewrite !elem_of_cons.
  all: repeat (apply lookup_insert_Some in Hv as [[<- _]|[_ Hv]]; [tauto |]).
  all: by rewrite lookup_empty in Hv.
Qed.



(** *** [main], stage by stage *)

Lemma require_str_bind {B} (value : option string) (f : string → io B) :
  require_str value ≫= f
  = match value with
    | Some (String c s) => f (String c s)
    | _ => ([], Raise (SystemExit 1))
    end.
Proof.
  destruct value as [[|c s]|]; cbn [require_str truthy_str]; [done | | done].
  apply io_bind_mret.
Qed.

Lemma io_bind_eta {A B} (m : io A) (f : A → io B) :
  m ≫= f
  = match m.2 with
    | Ok a => (m.1 ++ (f a).1, (f a).2)
    | Raise e => (m.1, Raise e)
    end.
Proof. reflexivity. Qed.

Lemma download_run cfg w image_url :
  (download_and_save_image w image_url (output_path cfg w) ≫= λ _,
     if SAVE_PROMPT_JSON cfg && USE_STRUCTURED_PROMPT cfg
     then save_prompt_metadata cfg w (output_path cfg w)
            (STRUCTURED_PROMPT cfg) (final_prompt cfg)
     else mret tt)
  = run_download cfg w image_url.
Proof.
  unfold download_and_save_image, run_download.
  destruct (negb (download_status_code (get_image w image_url) =? 200));
    [done |].
  rewrite io_bind_ok.
  by destruct (SAVE_PROMPT_JSON cfg && USE_STRUCTURED_PROMPT cfg).
Qed.

Lemma main_run cfg w :
  main cfg w
  = match get_api_key w with
    | Raise e => ([], Raise e)
    | Ok api_key =>
        match get_dimensions cfg with
        | Raise e => ([], Raise e)
        | Ok (width, height) =>
            if String.eqb (MODE cfg) "edit"
               && negb (path_exists w
                          (in_script_dir w (INPUT_IMAGE_FILENAME cfg)))
            then ([], Raise (SystemExit 1))
            else run_submit cfg w api_key width height
        end
    end.
Proof.
  unfold main. fold (final_prompt cfg).
  destruct (get_api_key w) as [api_key|e]; [| done].
  rewrite io_bind_pure_ok.
  destruct (get_dimensions cfg) as [[width height]|e]; [| done].
  rewrite io_bind_pure_ok.
  assert (∀ input,
    (submit_task cfg w api_key (final_prompt cfg) width height input
       ≫= λ task_response,
     require_str (task_id task_response) ≫= λ task,
     poll w api_key task ≫= λ result,
     require_str (sample result) ≫= λ image_url,
     download_and_save_image w image_url
       (in_script_dir w
          ((if String.eqb (MODE cfg) "edit" then "edited" else "generated")
             +:+ "_" +:+ now_strftime w +:+ "." +:+ OUTPUT_FORMAT cfg))
       ≫= λ _,
     if SAVE_PROMPT_JSON cfg && USE_STRUCTURED_PROMPT cfg
     then save_prompt_metadata cfg w
            (in_script_dir w
               ((if String.eqb (MODE cfg) "edit"
                 then "edited" else "generated")
                  +:+ "_" +:+ now_strftime w +:+ "." +:+ OUTPUT_FORMAT cfg))
            (STRUCTURED_PROMPT cfg) (final_prompt cfg)
     else mret tt)
    = match (submit_task cfg w api_key (final_prompt cfg) width height
               input).2 with
      | Raise e =>
          ((submit_task cfg w api_key (final_prompt cfg) width height
              input).1, Raise e)
      | Ok task_response =>
          match task_id task_response with
          | Some (String c s) =>
              ((submit_task cfg w api_key (final_prompt cfg) width height
                  input).1 ++ (run_poll cfg w api_key (String c s)).1,
               (run_poll cfg w api_key (String c s)).2)
          | _ =>
              ((submit_task cfg w api_key (final_prompt cfg) width height
                  input).1, Raise (SystemExit 1))
          end
      end) as Hrest.
  { intros input. rewrite io_bind_eta.
    destruct (submit_task cfg w api_key (final_prompt cfg) width height
                input).2 as [task_response|e]; [| done].
    rewrite require_str_bind.
    destruct (task_id task_response) as [[|c s]|];
      [by rewrite app_nil_r | | by rewrite app_nil_r].
    f_equal; f_equal.
    all: unfold run_poll, poll.
    all: destruct (poll_for_result (get_result w api_key (String c s)))
           as [log [result|e]]; cbn [fst snd]; [| done].
    all: rewrite io_bind_ok, require_str_bind.
    all: fold (output_path cfg w).
    all: destruct (sample result) as [[|c' s']|];
           rewrite ?download_run; cbn [fst snd]; by rewrite ?app_nil_r. }
  unfold run_submit, input_image_path.
  destruct (String.eqb (MODE cfg) "edit") eqn:Emode; cbn [andb].
  - destruct (path_exists w (in_script_dir w (INPUT_IMAGE_FILENAME cfg)));
      cbn [negb].
    + rewrite io_bind_mret, <- Hrest. by rewrite ?Emode.
    + done.
  - rewrite io_bind_mret, <- Hrest. by rewrite ?Emode.
Qed.

(** When [main] gets as far as the submission. *)
Lemma main_reaches_submit cfg w :
  (main cfg w).1 ≠ [] ∨ (main cfg w).2 = Ok tt →
  ∃ api_key width height,
    get_api_key w = Ok api_key
    ∧ get_dimensions cfg = Ok (width, height)
    ∧ (String.eqb (MODE cfg) "edit" = true →
       path_exists w (in_script_dir w (INPUT_IMAGE_FILENAME cfg)) = true)
    ∧ main cfg w = run_submit cfg w api_key width height.
Proof.
  rewrite main_run.
  destruct (get_api_key w) as [api_key|e]; [| by intros [?|?]].
  destruct (get_dimensions cfg) as [[width height]|e]; [| by intros [?|?]].
  destruct (String.eqb (MODE cfg) "edit"); cbn [andb].
  - destruct (path_exists w (in_script_dir w (INPUT_IMAGE_FILENAME cfg)));
      cbn [negb]; [| by intros [?|?]].
    intros _. by exists api_key, width, height.
  - intros _. by exists api_key, width, height.
Qed.

(** *** The effects of the stages *)

Lemma run_download_effects cfg w image_url e :
  e ∈ (run_download cfg w image_url).1 →
  e = Fetched image_url
  ∨ (download_status_code (get_image w image_url) = 200
     ∧ (e = Wrote (output_path cfg w) (content (get_image w image_url))
        ∨ (SAVE_PROMPT_JSON cfg = true ∧ USE_STRUCTURED_PROMPT cfg = true
           ∧ e = WroteJson (json_sibling w (output_path cfg w))
                   (saved_metadata cfg w)))).
Proof.
  unfold run_download.
  destruct (Z.eqb_spec (download_status_code (get_image w image_url)) 200)
    as [E|E]; cbn [negb fst snd].
  - rewrite elem_of_app, !elem_of_cons, elem_of_nil.
    intros [[->|[->|[]]]|H]; [by left | right; by eauto |].
    right. split; [done |]. right.
    destruct (SAVE_PROMPT_JSON cfg); destruct (USE_STRUCTURED_PROMPT cfg);
      cbn in H; try by apply elem_of_nil in H.
    apply list_elem_of_singleton in H. by subst.
  - rewrite list_elem_of_singleton. by left.
Qed.

Lemma run_poll_effects cfg w api_key task e :
  e ∈ (run_poll cfg w api_key task).1 →
  (∃ ev, e = Polled task ev)
  ∨ ∃ log result image_url,
      poll_for_result (get_result w api_key task) = (log, Ok result)
      ∧ sample result = Some image_url
      ∧ e ∈ (run_download cfg w image_url).1.
Proof.
  unfold run_poll.
  destruct (poll_for_result (get_result w api_key task))
    as [log [result|err]] eqn:E; cbn [fst snd].
  - destruct (sample result) as [[|c s]|] eqn:Es; cbn [fst snd].
    + intros (ev & -> & _)%list_elem_of_fmap. left. by eexists.
    + rewrite elem_of_app.
      intros [(ev & -> & _)%list_elem_of_fmap|H]; [left; by eexists |].
      right. by exists log, result, (String c s).
    + intros (ev & -> & _)%list_elem_of_fmap. left. by eexists.
  - intros (ev & -> & _)%list_elem_of_fmap. left. by eexists.
Qed.

Lemma run_submit_effects cfg w api_key width height e :
  e ∈ (run_submit cfg w api_key width height).1 →
  e ∈ (submit_task cfg w api_key (final_prompt cfg) width height
         (input_image_path cfg w)).1
  ∨ ∃ task, e ∈ (run_poll cfg w api_key task).1.
Proof.
  unfold run_submit.
  destruct (submit_task cfg w api_key (final_prompt cfg) width height
              (input_image_path cfg w)) as [log [task_response|err]];
    cbn [fst snd]; [| by left].
  destruct (task_id task_response) as [[|c s]|]; [by left | | by left].
  intros H. apply elem_of_app in H as [H|H]; [by left |].
  right. by exists (String c s).
Qed.

Lemma submit_task_effects cfg w api_key prompt width height input :
  (submit_task cfg w api_key prompt width height input).1 = []
  ∨ ∃ body,
      (submit_task cfg w api_key prompt width height input).1
      = [Posted (submit_request api_key body)]
      ∧ body !! "prompt" = Some (PyStr prompt)
      ∧ body !! "width" = Some (PyInt width)
      ∧ body !! "height" = Some (PyInt height).
Proof.
  rewrite submit_task_run.
  destruct (base_payload_lookup cfg prompt width height)
    as (Hp & Hw & Hh & _).
  destruct input as [path|].
  - destruct (encode_image_to_base64 (read_file w) path) as [image|e];
      [| by left].
    right. eexists. split; [done |]. by rewrite !lookup_insert_ne.
  - right. by eexists.
Qed.

(** An effect of [main] is the submission, a poll of some task, or an
    effect of the download stage, reached through a task and its result. *)
Lemma main_effects cfg w e :
  e ∈ (main cfg w).1 →
  ∃ api_key width height,
    get_api_key w = Ok api_key
    ∧ get_dimensions cfg = Ok (width, height)
    ∧ (e ∈ (submit_task cfg w api_key (final_prompt cfg) width height
              (input_image_path cfg w)).1
       ∨ ∃ task,
           (∃ ev, e = Polled task ev)
           ∨ ∃ log result image_url,
               poll_for_result (get_result w api_key task) = (log, Ok result)
               ∧ sample result = Some image_url
               ∧ e ∈ (run_download cfg w image_url).1).
Proof.
  intros He.
  destruct (main_reaches_submit cfg w) as (api_key & width & height
                                           & Hk & Hd & _ & Hmain).
  { left. intros E. rewrite E in He. by apply elem_of_nil in He. }
  exists api_key, width, height. do 2 (split; [done |]).
  rewrite Hmain in He.
  apply run_submit_effects in He as [He|(task & He)]; [by left |].
  right. exists task. by apply run_poll_effects in He.
Qed.

Lemma submit_task_no_write cfg w api_key prompt width height input e :
  e ∈ (submit_task cfg w api_key prompt width height input).1 →
  ∃ request, e = Posted request.
Proof.
  destruct (submit_task_effects cfg w api_key prompt width height input)
    as [E|(body & E & _)]; rewrite E.
  - by intros ?%elem_of_nil.
  - intros ->%list_elem_of_singleton. by eexists.
Qed.

Lemma get_api_key_inv w api_key :
  get_api_key w = Ok api_key → BFL_API_KEY w = Some api_key ∧ api_key ≠ "".
Proof.
  unfold get_api_key. destruct (BFL_API_KEY w) as [[|c s]|]; [done | | done].
  by intros [= <-].
Qed.

Lemma get_dimensions_aligned cfg aw ah :
  get_dimensions cfg = Ok (aw, ah) →
  (64 ≤ aw ∧ aw mod 16 = 0) ∧ (64 ≤ ah ∧ ah mod 16 = 0).
Proof.
  rewrite get_dimensions_requested.
  destruct (requested_dimensions cfg) as [[width height]|]; [| done].
  destruct (validate_dimensions width height)
    as [[[[aw' ah'] errors] warnings]|] eqn:E; [| done].
  cbn. destruct (truthy_list errors); [done |]. intros [= -> ->].
  by apply validate_dimensions_clamped_aligned in E.
Qed.

(** X21. [main] touches nothing outside before its checks have passed:
    when it has any effect at all, the API key is set and not empty, the
    dimensions were accepted by [get_dimensions], and in edit mode the
    input image exists. *)
Theorem main_checks_first cfg w :
  (main cfg w).1 ≠ [] →
  (∃ api_key, BFL_API_KEY w = Some api_key ∧ api_key ≠ "")
  ∧ (∃ width height, get_dimensions cfg = Ok (width, height))
  ∧ (MODE cfg = "edit" →
     path_exists w (in_script_dir w (INPUT_IMAGE_FILENAME cfg)) = true).
Proof.
  intros H. destruct (main_reaches_submit cfg w)
    as (api_key & width & height & Hk & Hd & He & _); [by left |].
  split; [exists api_key; by apply get_api_key_inv |].
  split; [by eauto |]. intros Hmode. apply He. rewrite Hmode.
  apply String.eqb_refl.
Qed.

Lemma main_checks_first_witness :
  (∃ api_key, BFL_API_KEY friendly_world = Some api_key ∧ api_key ≠ "")
  ∧ (∃ width height,
       get_dimensions (shipped_config quiet_prompt) = Ok (width, height))
  ∧ (MODE (shipped_config quiet_prompt) = "edit" →
     path_exists friendly_world
       (in_script_dir friendly_world
          (INPUT_IMAGE_FILENAME (shipped_config quiet_prompt))) = true).
Proof.
  apply main_checks_first. vm_compute. discriminate.
Defined.

Lemma run_download_no_post cfg w image_url request :
  Posted request ∉ (run_download cfg w image_url).1.
Proof.
  intros H. apply run_download_effects in H.
  destruct H as [[=]|(_ & [[=]|(_ & _ & [=])])].
Qed.

Lemma run_poll_no_post cfg w api_key task request :
  Posted request ∉ (run_poll cfg w api_key task).1.
Proof.
  intros H. apply run_poll_effects in H
    as [[ev [=]]|(log & result & image_url & _ & _ & H)].
  by apply run_download_no_post in H.
Qed.

(** The run from the submission on starts with the effects of
    [submit_task], and submits nothing after them. *)
Lemma run_submit_log cfg w api_key width height :
  ∃ rest,
    (run_submit cfg w api_key width height).1
    = (submit_task cfg w api_key (final_prompt cfg) width height
         (input_image_path cfg w)).1 ++ rest
    ∧ ∀ other, Posted other ∉ rest.
Proof.
  unfold run_submit.
  destruct (submit_task cfg w api_key (final_prompt cfg) width height
              (input_image_path cfg w)) as [log [task_response|err]];
    cbn [fst snd].
  - destruct (task_id task_response) as [[|c s]|].
    + exists []. split; [by rewrite app_nil_r |]. by intros ? ?%elem_of_nil.
    + exists (run_poll cfg w api_key (String c s)).1.
      split; [reflexivity |]. intros ?. apply run_poll_no_post.
    + exists []. split; [by rewrite app_nil_r |]. by intros ? ?%elem_of_nil.
  - exists []. split; [by rewrite app_nil_r |]. by intros ? ?%elem_of_nil.
Qed.

(** X22. [main] submits at most once, and the submission is its first
    effect. The request carries the key of the environment, the compiled
    prompt (or the simple one) and the dimensions [get_dimensions]
    returned, which are at least 64 and multiples of 16. *)
Theorem main_submission cfg w request :
  Posted request ∈ (main cfg w).1 →
  ∃ api_key width height rest,
    BFL_API_KEY w = Some api_key
    ∧ get_dimensions cfg = Ok (width, height)
    ∧ (64 ≤ width ∧ width mod 16 = 0) ∧ (64 ≤ height ∧ height mod 16 = 0)
    ∧ headers request !! "x-key" = Some api_key
    ∧ payload request !! "prompt" = Some (PyStr (final_prompt cfg))
    ∧ payload request !! "width" = Some (PyInt width)
    ∧ payload request !! "height" = Some (PyInt height)
    ∧ (main cfg w).1 = Posted request :: rest
    ∧ ∀ other, Posted other ∉ rest.
Proof.
  intros He.
  destruct (main_reaches_submit cfg w) as (api_key & width & height
                                           & Hk & Hd & _ & Hmain).
  { left. intros E. rewrite E in He. by apply elem_of_nil in He. }
  rewrite Hmain in He |- *.
  destruct (get_dimensions_aligned _ _ _ Hd) as [Hwidth Hheight].
  apply get_api_key_inv in Hk as [Hk _].
  destruct (run_submit_log cfg w api_key width height)
    as (rest & Hlog & Hrest).
  rewrite Hlog in He |- *.
  apply elem_of_app in He as [He|He]; [| by apply Hrest in He].
  destruct (submit_task_effects cfg w api_key (final_prompt cfg) width
              height (input_image_path cfg w))
    as [E|(body & E & Hp & Hw & Hh)]; rewrite E in He |- *;
    [by apply elem_of_nil in He |].
  apply list_elem_of_singleton in He as [= ->].
  exists api_key, width, height, rest.
  do 4 (split; [done |]).
  split; [by apply lookup_insert_eq |]. by do 4 (split; [done |]).
Qed.

Lemma main_submission_witness :
  ∃ api_key width height rest,
    BFL_API_KEY friendly_world = Some api_key
    ∧ get_dimensions (shipped_config quiet_prompt) = Ok (width, height)
    ∧ (64 ≤ width ∧ width mod 16 = 0) ∧ (64 ≤ height ∧ height mod 16 = 0)
    ∧ headers (submit_request "secret"
                 (base_payload (shipped_config quiet_prompt)
                    (final_prompt (shipped_config quiet_prompt)) 1536 1152))
        !! "x-key" = Some api_key
    ∧ payload (submit_request "secret"
                 (base_payload (shipped_config quiet_prompt)
                    (final_prompt (shipped_config quiet_prompt)) 1536 1152))
        !! "prompt"
      = Some (PyStr (final_prompt (shipped_config quiet_prompt)))
    ∧ payload (submit_request "secret"
                 (base_payload (shipped_config quiet_prompt)
                    (final_prompt (shipped_config quiet_prompt)) 1536 1152))
        !! "width" = Some (PyInt width)
    ∧ payload (submit_request "secret"
                 (base_payload (shipped_config quiet_prompt)
                    (final_prompt (shipped_config quiet_prompt)) 1536 1152))
        !! "height" = Some (PyInt height)
    ∧ (main (shipped_config quiet_prompt) friendly_world).1
      = Posted (submit_request "secret"
                  (base_payload (shipped_config quiet_prompt)
                     (final_prompt (shipped_config quiet_prompt)) 1536 1152))
          :: rest
    ∧ ∀ other, Posted other ∉ rest.
Proof.
  apply main_submission. vm_compute. apply list_elem_of_here.
Defined.




(** X24. The metadata file is written only with both [SAVE_PROMPT_JSON]
    and [USE_STRUCTURED_PROMPT] set, and only after a download that
    answered 200. It goes to the JSON sibling of the image path, and
    records the structured prompt of the configuration together with the
    text compiled from it, which is the text that was submitted. *)
Theorem main_saves_metadata cfg w path metadata :
  WroteJson path metadata ∈ (main cfg w).1 →
  SAVE_PROMPT_JSON cfg = true ∧ USE_STRUCTURED_PROMPT cfg = true
  ∧ path = json_sibling w (output_path cfg w)
  ∧ structured_prompt metadata = STRUCTURED_PROMPT cfg
  ∧ generated_prompt metadata
    = build_prompt_from_structure (STRUCTURED_PROMPT cfg)
  ∧ final_prompt cfg = generated_prompt metadata
  ∧ ∃ image_url, download_status_code (get_image w image_url) = 200.
Proof.
  intros He. apply main_effects in He
    as (api_key & width & height & _ & _ & [He|(task & He)]).
  { by apply submit_task_no_write in He as [? [=]]. }
  destruct He as [[ev [=]]|(log & result & image_url & Hp & Hs & He)].
  apply run_download_effects in He
    as [[=]|(Hc & [[=]|(Hsave & Huse & [= -> ->])])].
  do 3 (split; [done |]). unfold saved_metadata, final_prompt. cbn.
  rewrite Huse. do 3 (split; [done |]). by exists image_url.
Qed.

Lemma main_saves_metadata_witness :
  SAVE_PROMPT_JSON (shipped_config quiet_prompt) = true
  ∧ USE_STRUCTURED_PROMPT (shipped_config quiet_prompt) = true.
Proof.
  destruct (main_saves_metadata (shipped_config quiet_prompt) friendly_world
              {| parents := ["home"];
                 name := "generated_20240101_120000.json" |}
              (saved_metadata (shipped_config quiet_prompt) friendly_world))
    as (Hsave & Huse & _); [| by split].
  vm_compute. do 8 apply list_elem_of_further. apply list_elem_of_here.
Defined.

(** *** A run that returns *)

Lemma submit_task_ok cfg w api_key prompt width height input log response :
  submit_task cfg w api_key prompt width height input = (log, Ok response) →
  ∃ body,
    log = [Posted (submit_request api_key body)]
    ∧ response = post w (submit_request api_key body)
    ∧ submit_status_code response = 200.
Proof.
  rewrite submit_task_run.
  assert (∀ body,
    sent w api_key body = (log, Ok response) →
    ∃ body,
      log = [Posted (submit_request api_key body)]
      ∧ response = post w (submit_request api_key body)
      ∧ submit_status_code response = 200) as Hsent.
  { intros body. unfold sent.
    destruct (Z.eqb_spec
                (submit_status_code (post w (submit_request api_key body)))
                200) as [E|E]; cbn [negb]; [| done].
    intros [= <- <-]. by exists body. }
  destruct input as [path|]; [| apply Hsent].
  destruct (encode_image_to_base64 (read_file w) path); [apply Hsent | done].
Qed.

Lemma run_download_ok cfg w image_url :
  (run_download cfg w image_url).2 = Ok tt →
  download_status_code (get_image w image_url) = 200
  ∧ (run_download cfg w image_url).1
    = [Fetched image_url;
       Wrote (output_path cfg w) (content (get_image w image_url))]
      ++ (if SAVE_PROMPT_JSON cfg && USE_STRUCTURED_PROMPT cfg
          then [WroteJson (json_sibling w (output_path cfg w))
                  (saved_metadata cfg w)]
          else []).
Proof.
  unfold run_download.
  by destruct (Z.eqb_spec (download_status_code (get_image w image_url)) 200).
Qed.

Lemma run_poll_ok cfg w api_key task :
  (run_poll cfg w api_key task).2 = Ok tt →
  ∃ log result image_url,
    poll_for_result (get_result w api_key task) = (log, Ok result)
    ∧ sample result = Some image_url ∧ image_url ≠ ""
    ∧ (run_download cfg w image_url).2 = Ok tt
    ∧ (run_poll cfg w api_key task).1
      = (Polled task <$> log) ++ (run_download cfg w image_url).1.
Proof.
  unfold run_poll.
  destruct (poll_for_result (get_result w api_key task))
    as [log [result|err]]; cbn [fst snd]; [| done].
  destruct (sample result) as [[|c s]|] eqn:Es; [done | | done].
  intros H. by exists log, result, (String c s).
Qed.

Lemma run_submit_ok cfg w api_key width height :
  (run_submit cfg w api_key width height).2 = Ok tt →
  ∃ log task_response task,
    submit_task cfg w api_key (final_prompt cfg) width height
      (input_image_path cfg w) = (log, Ok task_response)
    ∧ task_id task_response = Some task ∧ task ≠ ""
    ∧ (run_poll cfg w api_key task).2 = Ok tt
    ∧ (run_submit cfg w api_key width height).1
      = log ++ (run_poll cfg w api_key task).1.
Proof.
  unfold run_submit.
  destruct (submit_task cfg w api_key (final_prompt cfg) width height
              (input_image_path cfg w)) as [log [task_response|err]];
    cbn [fst snd]; [| done].
  destruct (task_id task_response) as [[|c s]|] eqn:Et; [done | | done].
  intros H. exists log, task_response, (String c s). revert H.
  generalize (run_poll cfg w api_key (String c s)). by intros [plog outcome] H.
Qed.

(** X25. A run of [main] that returns has done exactly this, in this
    order: one submission, answered 200 with a task id that is not empty;
    the polls of that task, up to a result with an image address that is
    not empty; one download of that address, answered 200; the writing of the downloaded bytes to the
    output path; and, with [SAVE_PROMPT_JSON] and [USE_STRUCTURED_PROMPT]
    both set, the writing of the metadata beside it. *)
Theorem main_complete_run cfg w :
  (main cfg w).2 = Ok tt →
  ∃ api_key request task log result image_url,
    BFL_API_KEY w = Some api_key
    ∧ headers request !! "x-key" = Some api_key
    ∧ submit_status_code (post w request) = 200
    ∧ task_id (post w request) = Some task ∧ task ≠ ""
    ∧ poll_for_result (get_result w api_key task) = (log, Ok result)
    ∧ sample result = Some image_url ∧ image_url ≠ ""
    ∧ download_status_code (get_image w image_url) = 200
    ∧ (main cfg w).1
      = Posted request
        :: (Polled task <$> log)
        ++ Fetched image_url
        :: Wrote (output_path cfg w) (content (get_image w image_url))
        :: (if SAVE_PROMPT_JSON cfg && USE_STRUCTURED_PROMPT cfg
            then [WroteJson (json_sibling w (output_path cfg w))
                    (saved_metadata cfg w)]
            else []).
Proof.
  intros Hok. destruct (main_reaches_submit cfg w)
    as (api_key & width & height & [Hk _]%get_api_key_inv & _ & _ & Hmain);
    [by right |].
  rewrite Hmain in Hok |- *.
  apply run_submit_ok in Hok
    as (slog & response & task & Hs & Ht & Htask & Hok & ->).
  apply run_poll_ok in Hok
    as (log & result & image_url & Hp & Hr & Hurl & Hok & ->).
  apply run_download_ok in Hok as [Hc ->].
  apply submit_task_ok in Hs as (body & -> & -> & Hcode).
  exists api_key, (submit_request api_key body), task, log, result, image_url.
  do 9 (split; [done |]). reflexivity.
Qed.

Lemma main_complete_run_witness :
  ∃ api_key request task log result image_url,
    BFL_API_KEY friendly_world = Some api_key
    ∧ headers request !! "x-key" = Some api_key
    ∧ submit_status_code (post friendly_world request) = 200
    ∧ task_id (post friendly_world request) = Some task ∧ task ≠ ""
    ∧ poll_for_result (get_result friendly_world api_key task)
      = (log, Ok result)
    ∧ sample result = Some image_url ∧ image_url ≠ ""
    ∧ download_status_code (get_image friendly_world image_url) = 200
    ∧ (main (shipped_config quiet_prompt) friendly_world).1
      = Posted request
        :: (Polled task <$> log)
        ++ Fetched image_url
        :: Wrote (output_path (shipped_config quiet_prompt) friendly_world)
             (content (get_image friendly_world image_url))
        :: (if SAVE_PROMPT_JSON (shipped_config quiet_prompt)
               && USE_STRUCTURED_PROMPT (shipped_config quiet_prompt)
            then [WroteJson
                    (json_sibling friendly_world
                       (output_path (shipped_config quiet_prompt)
                          friendly_world))
                    (saved_metadata (shipped_config quiet_prompt)
                       friendly_world)]
            else []).
Proof.
  apply main_complete_run. vm_compute. reflexivity.
Defined.

Example main_without_key :
  main (shipped_config quiet_prompt)
    {| BFL_API_KEY := None;
       in_script_dir := in_script_dir friendly_world;
       path_exists := path_exists friendly_world;
       read_file := read_file friendly_world;
       json_sibling := json_sibling friendly_world;
       now_strftime := now_strftime friendly_world;
       now_isoformat := now_isoformat friendly_world;
       post := post friendly_world;
       get_result := get_result friendly_world;
       get_image := get_image friendly_world |}
  = ([], Raise (SystemExit 1)).
Proof. reflexivity. Qed.
